(** * binclude: the embedded file system and the bundle partitioner

    A shallow embedding of the Go package [binclude] (the [FileSystem],
    [File] and [FileInfo] types with their methods, [Encode]/[Compress] and
    [Decompress]) and of [bincludegen.buildFS] (the derivation of the bundle
    key from the name of the declaring Go file), with the two loops of
    [bincludegen.detectIncluded] over the lines of an include file and over
    the included paths.

    Conventions of the embedding.
    - A Go [string] is a [string]; a [[]byte] is a [list byte].
    - [Files] is [map[string]*File].  Every key owns its record (that is how
      [buildFS] and the generated code build the map: one [&File{...}] literal
      per key), so the map is a [gmap string File] and a [*File] is the key
      under which the record is stored.  A method that writes a field of the
      record through the pointer updates the map at that key.
    - [Debug] is the package variable initialised to [false]; the embedding
      covers that setting (the in-memory store, not the host redirection).
    - A Go [range] over a map visits every key once in an unspecified order:
      the functions that range over [Files] and whose result can depend on the
      order take the order of the visit as an argument.
    - Code outside the package (mimetype, compress/gzip, sort) is a method
      of the class [Externals]; encoding/hex, bytes.Reader, strings and
      path/filepath are written out. *)

From Stdlib Require Import ZArith NArith List Strings.String Strings.Ascii Strings.Byte.
From Stdlib Require Import Sorting.Sorted Sorting.Permutation.
From stdpp Require Import gmap strings list fin_maps sorting.

Local Open Scope string_scope.

(** ** Package strings *)

Module GoStrings.

(** [len(s) >= len(prefix) && s[0:len(prefix)] == prefix] *)
Definition HasPrefix (s prefix : string) : bool :=
  (String.length prefix <=? String.length s)%nat
  && String.eqb (substring 0 (String.length prefix) s) prefix.

(** [len(s) >= len(suffix) && s[len(s)-len(suffix):] == suffix] *)
Definition HasSuffix (s suffix : string) : bool :=
  (String.length suffix <=? String.length s)%nat
  && String.eqb
       (substring (String.length s - String.length suffix)
                  (String.length suffix) s)
       suffix.

(** [if HasPrefix(s, prefix) { return s[len(prefix):] }; return s] *)
Definition TrimPrefix (s prefix : string) : string :=
  if HasPrefix s prefix
  then substring (String.length prefix)
                 (String.length s - String.length prefix) s
  else s.

(** The comparison [a < b] of two Go strings: bytewise lexicographic. *)
Fixpoint ltb (a b : string) : bool :=
  match a, b with
  | _, EmptyString => false
  | EmptyString, String _ _ => true
  | String x a', String y b' =>
      if (N_of_ascii x <? N_of_ascii y)%N then true
      else if (N_of_ascii y <? N_of_ascii x)%N then false
      else ltb a' b'
  end.

End GoStrings.

(** ** Package encoding/hex *)

Inductive error : Type :=
  | PathError (op path msg : string)       (* *os.PathError *)
  | EOF                                    (* io.EOF *)
  | InvalidByteError (b : byte)            (* hex.InvalidByteError *)
  | ErrLength                              (* hex.ErrLength *)
  | GzipErr (msg : string)                 (* fmt.Errorf("Gzip err: %v", err) *)
  | ReaderErr (msg : string)               (* fmt.Errorf("Reader err: %v", err) *)
  | SeekError (msg : string)               (* errors of bytes.Reader.Seek *)
  | HostError (op path : string).          (* an error of the host's os package *)

Module hex.

Definition hextable : list byte := list_byte_of_string "0123456789abcdef".

Definition byte_of_N (n : N) : byte :=
  match Byte.of_N (n mod 256) with Some b => b | None => x00 end.

(** [dst[j] = hextable[v>>4]; dst[j+1] = hextable[v&0x0f]] *)
Definition EncodeByte (v : byte) : list byte :=
  [ nth (N.to_nat (N.shiftr (Byte.to_N v) 4)) hextable x00;
    nth (N.to_nat (N.land (Byte.to_N v) 15)) hextable x00 ].

Definition Encode (src : list byte) : list byte :=
  concat (map EncodeByte src).

Definition EncodeToString (src : list byte) : string :=
  string_of_list_byte (Encode src).

(** [reverseHexTable]: the value of a hexadecimal digit of either case,
    [None] for the entries 0xff of the table. *)
Definition fromHexChar (c : byte) : option N :=
  let n := Byte.to_N c in
  if ((48 <=? n) && (n <=? 57))%N then Some (n - 48)%N
  else if ((97 <=? n) && (n <=? 102))%N then Some (n - 97 + 10)%N
  else if ((65 <=? n) && (n <=? 70))%N then Some (n - 65 + 10)%N
  else None.

(** [hex.Decode(dst, src)] with [dst] of length [DecodedLen(len(src))]:
    the decoded bytes, or the error of the first offending pair; a
    trailing odd byte is checked before [ErrLength] is reported. *)
Fixpoint Decode (src : list byte) : list byte + error :=
  match src with
  | [] => inl []
  | [p] =>
      match fromHexChar p with
      | None => inr (InvalidByteError p)
      | Some _ => inr ErrLength
      end
  | p :: q :: rest =>
      match fromHexChar p with
      | None => inr (InvalidByteError p)
      | Some a =>
          match fromHexChar q with
          | None => inr (InvalidByteError q)
          | Some b =>
              match Decode rest with
              | inl d => inl (byte_of_N (N.lor (N.shiftl a 4) b) :: d)
              | inr e => inr e
              end
          end
      end
  end.

End hex.

(** ** Package path/filepath (slash-separated host) *)

Module filepath.

Definition is_sep (c : ascii) : bool := Ascii.eqb c "/"%char.

(** The elements of a path between its separators. *)
Fixpoint split (s : string) : list string :=
  match s with
  | EmptyString => [EmptyString]
  | String c s' =>
      if is_sep c then EmptyString :: split s'
      else match split s' with
           | h :: t => String c h :: t
           | [] => [String c EmptyString]
           end
  end.

(** One element of [Clean]'s loop; [out] is the output so far, last
    element first. *)
Definition clean_step (rooted : bool) (out : list string) (elem : string)
  : list string :=
  if String.eqb elem "" then out
  else if String.eqb elem "." then out
  else if String.eqb elem ".." then
    match out with
    | top :: rest =>
        if String.eqb top ".." then ".." :: out else rest
    | [] => if rooted then [] else [".."]
    end
  else elem :: out.

Fixpoint join (l : list string) : string :=
  match l with
  | [] => ""
  | [x] => x
  | x :: rest => x ++ "/" ++ join rest
  end.

Definition Clean (path : string) : string :=
  match path with
  | EmptyString => "."
  | String c _ =>
      let rooted := is_sep c in
      let body := join (rev (fold_left (clean_step rooted) (split path) [])) in
      if rooted then "/" ++ body
      else if String.eqb body "" then "." else body
  end.

(** [path[:i+1]] for [i] the index of the last separator, [None] when the
    path has no separator. *)
Fixpoint upto_last_sep (s : string) : option string :=
  match s with
  | EmptyString => None
  | String c s' =>
      match upto_last_sep s' with
      | Some r => Some (String c r)
      | None => if is_sep c then Some (String c EmptyString) else None
      end
  end.

Definition Dir (path : string) : string :=
  Clean (default "" (upto_last_sep path)).

(** [IsAbs] on a slash-separated host: [strings.HasPrefix(path, "/")]. *)
Definition IsAbs (path : string) : bool := GoStrings.HasPrefix path "/".

End filepath.

(** ** Package bytes: the [Reader] behind an opened file *)

Definition wrap64 (z : Z) : Z := (z + 2^63) mod 2^64 - 2^63.

Module Reader.

(** [bytes.Reader]: the slice read from and the current reading index. *)
Record t : Type := mk { s : list byte; i : Z }.

Definition NewReader (b : list byte) : t := {| s := b; i := 0 |}.

Definition len (r : t) : Z := Z.of_nat (List.length (s r)).

(** [Read(b)] for a buffer of [n] bytes: the reader afterwards, the bytes
    copied into [b], and the error.  [r.i += int64(n)] stays within
    [len(r.s)], so it does not wrap. *)
Definition Read (r : t) (n : nat) : t * (list byte * option error) :=
  if (len r <=? i r)%Z then (r, ([], Some EOF))
  else
    let data := take n (drop (Z.to_nat (i r)) (s r)) in
    ({| s := s r; i := i r + Z.of_nat (List.length data) |},
     (data, None)).

Definition SeekStart : Z := 0.
Definition SeekCurrent : Z := 1.
Definition SeekEnd : Z := 2.

Definition Seek (r : t) (offset whence : Z) : t * (Z + error) :=
  let abs :=
    if (whence =? SeekStart)%Z then Some offset
    else if (whence =? SeekCurrent)%Z then Some (wrap64 (i r + offset))
    else if (whence =? SeekEnd)%Z then Some (wrap64 (len r + offset))
    else None in
  match abs with
  | None => (r, inr (SeekError "bytes.Reader.Seek: invalid whence"))
  | Some a =>
      if (a <? 0)%Z
      then (r, inr (SeekError "bytes.Reader.Seek: negative position"))
      else ({| s := s r; i := a |}, inl a)
  end.

End Reader.

(** ** [os.FileMode] *)

Module FileMode.

(** A [uint32]; [ModeDir] is its top bit, [ModePerm] is [0777]. *)
Definition ModeDir : Z := 2 ^ 31.
Definition ModePerm : Z := 511.

Definition IsDir (m : Z) : bool := negb (Z.land m ModeDir =? 0)%Z.
Definition Perm (m : Z) : Z := Z.land m ModePerm.

End FileMode.

(** ** The data model of package binclude *)

(** [type Compression int] with [None = iota] and [Gzip]. *)
Inductive Compression : Type := None_ | Gzip.

Global Instance Compression_eq_dec : EqDecision Compression.
Proof. solve_decision. Defined.

(** [type File struct]: the persisted fields, then the transient ones.
    [reader] is [None] for a nil interface; [fs] tells whether the
    back-reference to the owning [FileSystem] is set. *)
Record File : Type := mkFile {
  Filename : string;
  Mode : Z;
  ModTime : Z;
  Content : list byte;
  compression : Compression;
  reader : option Reader.t;
  path : string;
  fs : bool
}.

(** [type FileInfo struct] *)
Record FileInfo : Type := mkFileInfo {
  name : string;
  mode : Z;
  modtime : Z;
  size : Z
}.

(** [type Files map[string]*File]; a [*File] is the key of its record. *)
Abbreviation Files := (gmap string File).
Definition handle : Type := string.

(** The result of a call that may panic at run time instead of returning,
    or, for the loops that read to the end, use up its fuel. *)
Inductive outcome (A : Type) : Type :=
  | Returned (a : A)
  | Panicked (msg : string)
  | OutOfFuel.
Arguments Returned {A} a.
Arguments Panicked {A} msg.
Arguments OutOfFuel {A}.

Definition nil_dereference : string :=
  "runtime error: invalid memory address or nil pointer dereference".

Definition set_reader (r : option Reader.t) (f : File) : File :=
  {| Filename := Filename f; Mode := Mode f; ModTime := ModTime f;
     Content := Content f; compression := compression f;
     reader := r; path := path f; fs := fs f |}.

Definition set_Content (c : list byte) (f : File) : File :=
  {| Filename := Filename f; Mode := Mode f; ModTime := ModTime f;
     Content := c; compression := compression f;
     reader := reader f; path := path f; fs := fs f |}.

Definition set_compression (a : Compression) (f : File) : File :=
  {| Filename := Filename f; Mode := Mode f; ModTime := ModTime f;
     Content := Content f; compression := a;
     reader := reader f; path := path f; fs := fs f |}.

(** The three assignments of [Open]:
    [f.reader = bytes.NewReader(f.Content); f.path = name; f.fs = fs]. *)
Definition opened (nm : string) (f : File) : File :=
  {| Filename := Filename f; Mode := Mode f; ModTime := ModTime f;
     Content := Content f; compression := compression f;
     reader := Some (Reader.NewReader (Content f)); path := nm; fs := true |}.

(** The persisted fields of a record, those the generated code writes
    down. *)
Definition persisted (f : File)
  : string * Z * Z * list byte * Compression :=
  (Filename f, Mode f, ModTime f, Content f, compression f).

(** *** Methods of [*FileInfo] *)

Module FileInfo_.
Definition Name (info : FileInfo) : string := name info.
Definition Size (info : FileInfo) : Z := size info.
Definition Mode (info : FileInfo) : Z := mode info.
Definition ModTime (info : FileInfo) : Z := modtime info.
Definition IsDir (info : FileInfo) : bool := FileMode.IsDir (Mode info).
End FileInfo_.

(** *** Methods of [*File], on the record *)

Module File_.

(** [return f.reader.Read(p)]: a nil [reader] panics. *)
Definition Read (f : File) (n : nat)
  : outcome (File * (list byte * option error)) :=
  match reader f with
  | None => Panicked nil_dereference
  | Some r =>
      let '(r', res) := Reader.Read r n in
      Returned (set_reader (Some r') f, res)
  end.

Definition Name (f : File) : string := path f.

(** [f.reader = nil; return nil] *)
Definition Close (f : File) : File := set_reader None f.

Definition Size (f : File) : Z := Z.of_nat (List.length (Content f)).

(** [Stat]: the error is always nil. *)
Definition Stat (f : File) : FileInfo :=
  {| name := Filename f; mode := Mode f; size := Size f;
     modtime := ModTime f |}.

Definition Seek (f : File) (offset whence : Z)
  : outcome (File * (Z + error)) :=
  match reader f with
  | None => Panicked nil_dereference
  | Some r =>
      let '(r', res) := Reader.Seek r offset whence in
      Returned (set_reader (Some r') f, res)
  end.

(** The directory whose entries [Readdir] lists. *)
Definition fileDir (f : File) : string :=
  if FileMode.IsDir (Mode f) then Name f else filepath.Dir (path f).

(** [Readdir]: the loop over [f.fs.Files], visiting the keys in the order
    [ord]; [count] is ignored by the source. *)
Definition Readdir (files : Files) (ord : list string) (f : File)
  : list FileInfo :=
  let fileDir := fileDir f in
  fold_left
    (fun infos p =>
       match files !! p with
       | Some file =>
           if String.eqb (filepath.Dir p) fileDir
           then (infos ++ [Stat file])%list else infos
       | None => infos
       end)
    ord [].

End File_.

(** *** Methods of [*File], through the pointer held by a caller *)

Module Handle.

Definition Read (files : Files) (h : handle) (n : nat)
  : outcome (Files * (list byte * option error)) :=
  match files !! h with
  | None => Panicked nil_dereference
  | Some f =>
      match File_.Read f n with
      | Returned (f', res) => Returned (<[h := f']> files, res)
      | Panicked m => Panicked m
      | OutOfFuel => OutOfFuel
      end
  end.

Definition Seek (files : Files) (h : handle) (offset whence : Z)
  : outcome (Files * (Z + error)) :=
  match files !! h with
  | None => Panicked nil_dereference
  | Some f =>
      match File_.Seek f offset whence with
      | Returned (f', res) => Returned (<[h := f']> files, res)
      | Panicked m => Panicked m
      | OutOfFuel => OutOfFuel
      end
  end.

Definition Close (files : Files) (h : handle) : Files :=
  match files !! h with
  | None => files
  | Some f => <[h := File_.Close f]> files
  end.

(** The read position seen through a handle: [h.Seek(0, io.SeekCurrent)]. *)
Definition position (files : Files) (h : handle) : outcome (Z + error) :=
  match Seek files h 0 Reader.SeekCurrent with
  | Returned (_, res) => Returned res
  | Panicked m => Panicked m
  | OutOfFuel => OutOfFuel
  end.

End Handle.

(** [ioutil.ReadAll(f)] and the loop of [io.Copy(dst, f)]: [Read] into a
    buffer of [chunk] bytes until [io.EOF], which ends the loop without
    being reported. *)
Fixpoint read_to_EOF (fuel chunk : nat) (f : File) (acc : list byte)
  : outcome (File * list byte) :=
  match fuel with
  | O => OutOfFuel
  | S k =>
      match File_.Read f chunk with
      | Returned (f', (data, Some _)) => Returned (f', (acc ++ data)%list)
      | Returned (f', (data, None)) => read_to_EOF k chunk f' (acc ++ data)%list
      | Panicked m => Panicked m
      | OutOfFuel => OutOfFuel
      end
  end.

Definition read_fuel (f : File) : nat :=
  match reader f with
  | Some r => S (S (List.length (Reader.s r)))
  | None => 1
  end.

Definition ReadAll (f : File) : outcome (File * list byte) :=
  read_to_EOF (read_fuel f) 512 f [].

(** ** The host file system, as far as [CopyFile] uses it *)

(** A host file: its permission bits and its bytes. *)
Record HostFile : Type := mkHostFile { hperm : Z; hdata : list byte }.

(** The host: its files, the names at which opening for writing fails,
    the umask of the process, and for some names the number of bytes the
    host lets the file hold (a full device, a quota): a write that would
    pass it is cut short and reports an error. *)
Record Host : Type := mkHost {
  hfiles : gmap string HostFile;
  hdenied : gset string;
  humask : Z;
  hquota : gmap string nat
}.

Definition set_hfiles (m : gmap string HostFile) (host : Host) : Host :=
  {| hfiles := m; hdenied := hdenied host; humask := humask host;
     hquota := hquota host |}.

Module os.

(** [os.OpenFile(name, O_WRONLY|O_CREATE|O_TRUNC, perm)]: an existing
    file is truncated and keeps its mode, a missing one is created with
    mode [perm] less the bits of the umask ("mode perm (before umask)"). *)
Definition OpenFile (host : Host) (nm : string) (perm : Z) : Host + error :=
  if decide (nm ∈ hdenied host) then inr (HostError "open" nm)
  else
    let hf :=
      match hfiles host !! nm with
      | Some old => {| hperm := hperm old; hdata := [] |}
      | None => {| hperm := Z.ldiff perm (humask host); hdata := [] |}
      end in
    inl (set_hfiles (<[nm := hf]> (hfiles host)) host).

(** The bytes of [data] the host takes when they are written at the end
    of the file under [nm]. *)
Definition taken (host : Host) (nm : string) (data : list byte) : list byte :=
  match hquota host !! nm with
  | Some limit =>
      let old := match hfiles host !! nm with
                 | Some hf => hdata hf
                 | None => []
                 end in
      take (limit - List.length old) data
  | None => data
  end.

(** Writing [data] at the end of the file opened under [nm]: the host
    afterwards, and the error of a write cut short. *)
Definition Write (host : Host) (nm : string) (data : list byte)
  : Host * option error :=
  let part := taken host nm data in
  (set_hfiles
     (alter (fun hf => {| hperm := hperm hf; hdata := (hdata hf ++ part)%list |})
            nm (hfiles host))
     host,
   if (List.length part <? List.length data)%nat
   then Some (HostError "write" nm) else None).

(** [os.Stat(name)] as [CopyFile] uses it: only its error. *)
Definition Stat (host : Host) (nm : string) : option error :=
  match hfiles host !! nm with
  | Some _ => None
  | None => Some (HostError "stat" nm)
  end.

End os.

(** ** Code outside the package *)

(** The result of [gzip.NewReader] followed by [ioutil.ReadAll]. *)
Inductive gzip_result : Type :=
  | GzOk (data : list byte)
  | GzHeaderErr (msg : string)     (* gzip.NewReader fails *)
  | GzReadErr (msg : string).      (* reading the stream fails *)

Class Externals : Type := {
  (** [mimetype.Detect(content).String()] *)
  mimetype_Detect : list byte -> string;
  (** the bytes a [gzip.NewWriter(b)] has written to [b] after
      [Write(content)] and [Close()] *)
  gzip_Write : list byte -> list byte;
  (** [gzip.NewReader(bytes.NewReader(dst))], then [ioutil.ReadAll] *)
  gzip_Read : list byte -> gzip_result;
  (** [sort.Slice(list, less)] on a list of [os.FileInfo] *)
  sort_Slice : list FileInfo -> (FileInfo -> FileInfo -> bool) -> list FileInfo
}.

(** What the callers rely on: gzip reads back what it wrote, *)
Definition gzip_inverse (E : Externals) : Prop :=
  forall c : list byte, gzip_Read (gzip_Write c) = GzOk c.

(** and [sort.Slice] permutes its argument into an order in which no
    element is [less] than one before it, when [less] is a strict weak
    order. *)
Definition strict_weak_order {A : Type} (less : A -> A -> bool) : Prop :=
  (forall x, less x x = false)
  /\ (forall x y z, less x y = true -> less y z = true -> less x z = true)
  /\ (forall x y z, less x y = false -> less y x = false ->
                    less y z = false -> less z y = false ->
                    less x z = false /\ less z x = false).

Definition sorted_by {A : Type} (less : A -> A -> bool) (l : list A) : Prop :=
  StronglySorted (fun a b => less b a = false) l.

Definition sort_contract (E : Externals) : Prop :=
  forall (l : list FileInfo) (less : FileInfo -> FileInfo -> bool),
    strict_weak_order less ->
    sort_Slice l less ≡ₚ l /\ sorted_by less (sort_Slice l less).

(** ** Compression policy *)

Definition compressExcl : list string :=
  ["application/x-7z-compressed"; "application/zip"; "application/x-bzip2";
   "application/gzip"; "image/png"; "image/jpg"; "image/gif"].

(** [shouldCompress]: false as soon as the sniffed type equals an entry. *)
Definition shouldCompress {E : Externals} (content : list byte) : bool :=
  let mimeStr := mimetype_Detect content in
  negb (existsb (fun excl => String.eqb mimeStr excl) compressExcl).

(** ** Methods of [*FileSystem] *)

Definition NotFound (nm : string) : error :=
  PathError "open" nm "File does not exist in binclude map".

(** A [range] over [files] visits exactly its keys, each once. *)
Definition range_order (files : Files) (ord : list string) : Prop :=
  NoDup ord /\ forall p, p ∈ ord <-> is_Some (files !! p).

Module FileSystem.
Section methods.
Context {E : Externals}.

Definition Open (files : Files) (nm : string) : Files * (handle + error) :=
  let nm := GoStrings.TrimPrefix nm "./" in
  match files !! nm with
  | Some f => (<[nm := opened nm f]> files, inl nm)
  | None => (files, inr (NotFound nm))
  end.

(** [Stat]: open, [defer f.Close()], [f.Stat()]. *)
Definition Stat (files : Files) (nm : string) : Files * (FileInfo + error) :=
  match Open files nm with
  | (files1, inr err) => (files1, inr err)
  | (files1, inl h) =>
      match files1 !! h with
      | Some f => (Handle.Close files1 h, inl (File_.Stat f))
      | None => (files1, inr (NotFound h))
      end
  end.

(** [ReadFile]: open, [defer f.Close()], [ioutil.ReadAll(f)]. *)
Definition ReadFile (files : Files) (filename : string)
  : outcome (Files * (list byte + error)) :=
  match Open files filename with
  | (files1, inr err) => Returned (files1, inr err)
  | (files1, inl h) =>
      match files1 !! h with
      | Some f =>
          match ReadAll f with
          | Returned (f', data) =>
              Returned (Handle.Close (<[h := f']> files1) h, inl data)
          | Panicked m => Panicked m
          | OutOfFuel => OutOfFuel
          end
      | None => Returned (files1, inr (NotFound h))
      end
  end.

(** The [less] of [ReadDir]: [list[i].Name() < list[j].Name()]. *)
Definition less_Name (a b : FileInfo) : bool :=
  GoStrings.ltb (FileInfo_.Name a) (FileInfo_.Name b).

(** [ReadDir]: open, [f.Readdir(-1)] (visiting the map in the order
    [ord]), close, sort by name. *)
Definition ReadDir (ord : list string) (files : Files) (dirname : string)
  : Files * (list FileInfo + error) :=
  match Open files dirname with
  | (files1, inr err) => (files1, inr err)
  | (files1, inl h) =>
      match files1 !! h with
      | Some f =>
          let list := File_.Readdir files1 ord f in
          (Handle.Close files1 h, inl (sort_Slice list less_Name))
      | None => (files1, inr (NotFound h))
      end
  end.

(** [CopyFile]: the store and the host afterwards, and the error. *)
Definition CopyFile (files : Files) (host : Host)
           (bincludePath hostPath : string)
  : outcome (Files * Host * option error) :=
  match Open files bincludePath with
  | (files1, inr err) => Returned (files1, host, Some err)
  | (files1, inl src) =>
      match files1 !! src with
      | None => Returned (files1, host, Some (NotFound src))
      | Some f =>
          let info := File_.Stat f in
          match os.OpenFile host hostPath
                            (FileMode.Perm (FileInfo_.Mode info)) with
          | inr err => Returned (Handle.Close files1 src, host, Some err)
          | inl host1 =>
              (* io.Copy(dst, src): its error is returned *)
              match read_to_EOF (read_fuel f) (32 * 1024) f [] with
              | Returned (f', data) =>
                  let '(host2, werr) := os.Write host1 hostPath data in
                  let files2 := Handle.Close (<[src := f']> files1) src in
                  match werr with
                  | Some err => Returned (files2, host2, Some err)
                  | None => Returned (files2, host2, os.Stat host2 hostPath)
                  end
              | Panicked m => Panicked m
              | OutOfFuel => OutOfFuel
              end
          end
      end
  end.

(** One iteration of [Encode].  The writer is a [gzip.Writer] or the
    [NopCloser] over the buffer; writing to a [bytes.Buffer] returns no
    error, so neither does [Encode]. *)
Definition encode_file (algo : Compression) (file : File) : File :=
  if FileMode.IsDir (Mode file) || negb (shouldCompress (Content file))
  then file
  else
    let b :=
      match algo with
      | Gzip => gzip_Write (Content file)
      | None_ => Content file
      end in
    set_Content (list_byte_of_string (hex.EncodeToString b))
                (set_compression algo file).

(** [Encode]: every record is visited once and on its own, so the order
    of the visit does not show. *)
Definition Encode (algo : Compression) (files : Files) : Files :=
  encode_file algo <$> files.

Definition Compress (algo : Compression) (files : Files) : Files :=
  Encode algo files.

(** The new content of one record in [Decompress], or its error. *)
Definition decode_file (file : File) : list byte + error :=
  match hex.Decode (Content file) with
  | inr err => inr err
  | inl dst =>
      match compression file with
      | Gzip =>
          match gzip_Read dst with
          | GzOk d => inl d
          | GzHeaderErr m => inr (GzipErr m)
          | GzReadErr m => inr (ReaderErr m)
          end
      | None_ => inl dst
      end
  end.

(** What [Decompress] makes of a record it decodes. *)
Definition decoded (f : File) : File :=
  match decode_file f with
  | inl dst => set_Content dst f
  | inr _ => f
  end.

(** [Decompress]: the loop over the map in the order [ord]; the first
    error ends it, leaving the records visited before rewritten. *)
Fixpoint Decompress (ord : list string) (files : Files)
  : Files * option error :=
  match ord with
  | [] => (files, None)
  | p :: rest =>
      match files !! p with
      | None => Decompress rest files
      | Some file =>
          match decode_file file with
          | inr err => (files, Some err)
          | inl dst => Decompress rest (<[p := set_Content dst file]> files)
          end
      end
  end.

End methods.
End FileSystem.

(** ** The entries of a directory *)

(** The directory [Readdir] lists for the record stored under [h]. *)
Definition listed_dir (h : string) (f : File) : string :=
  if FileMode.IsDir (Mode f) then h else filepath.Dir h.

(** The [FileInfo]s of the records whose path has [d] as its
    [filepath.Dir], in the order of [map_to_list]. *)
Definition dir_infos (files : Files) (d : string) : list FileInfo :=
  (fun pf : string * File => File_.Stat pf.2)
    <$> filter (fun pf : string * File => filepath.Dir pf.1 = d)
               (map_to_list files).


(** ** Sequences of calls *)

(** The calls a program makes on a [FileSystem] and on the files it has
    opened. *)
Inductive call : Type :=
  | CallOpen (nm : string)
  | CallStat (nm : string)
  | CallReadFile (nm : string)
  | CallReadDir (ord : list string) (nm : string)
  | CallCopyFile (src dst : string)
  | CallRead (h : handle) (n : nat)
  | CallSeek (h : handle) (offset whence : Z)
  | CallClose (h : handle).

(** One call, on the store and the host: the store and the host it
    leaves, its results being dropped. *)
Definition run_call {E : Externals} (st : Files * Host) (c : call)
  : outcome (Files * Host) :=
  let '(files, host) := st in
  match c with
  | CallOpen nm => Returned (fst (FileSystem.Open files nm), host)
  | CallStat nm => Returned (fst (FileSystem.Stat files nm), host)
  | CallReadFile nm =>
      match FileSystem.ReadFile files nm with
      | Returned (files', _) => Returned (files', host)
      | Panicked m => Panicked m
      | OutOfFuel => OutOfFuel
      end
  | CallReadDir ord nm => Returned (fst (FileSystem.ReadDir ord files nm), host)
  | CallCopyFile src dst =>
      match FileSystem.CopyFile files host src dst with
      | Returned (files', host', _) => Returned (files', host')
      | Panicked m => Panicked m
      | OutOfFuel => OutOfFuel
      end
  | CallRead h n =>
      match Handle.Read files h n with
      | Returned (files', _) => Returned (files', host)
      | Panicked m => Panicked m
      | OutOfFuel => OutOfFuel
      end
  | CallSeek h offset whence =>
      match Handle.Seek files h offset whence with
      | Returned (files', _) => Returned (files', host)
      | Panicked m => Panicked m
      | OutOfFuel => OutOfFuel
      end
  | CallClose h => Returned (Handle.Close files h, host)
  end.

Fixpoint run_calls {E : Externals} (st : Files * Host) (cs : list call)
  : outcome (Files * Host) :=
  match cs with
  | [] => Returned st
  | c :: rest =>
      match run_call st c with
      | Returned st' => run_calls st' rest
      | Panicked m => Panicked m
      | OutOfFuel => OutOfFuel
      end
  end.

(** Whether a call is an [Open] of the record stored under [h]. *)
Definition reopens (h : handle) (c : call) : bool :=
  match c with
  | CallOpen nm => String.eqb (GoStrings.TrimPrefix nm "./") h
  | _ => false
  end.

(** ** Package bincludegen: the bundle key of [buildFS] *)

Module bincludegen.

Definition operatingSystems : list string :=
  ["linux"; "windows"; "darwin"; "freebsd"; "js"; "plan9"; "freebsd";
   "dragonfly"; "openbsd"; "solaris"; "aix"; "android"].

Definition archs : list string :=
  ["ppc64"; "386"; "amd64"; "wasm"; "arm"; "ppc64le"; "mips"; "mips64";
   "mips64le"; "mipsle"; "s390x"; "arm64"].

Record includedFile : Type := mkIncluded {
  includedPath : string;
  goFile : string
}.

(** The two loops of [buildFS] over [archs] and [operatingSystems] and
    the default, for one declaring file. *)
Definition buildTag (goFile : string) : string :=
  let tag1 :=
    fold_left
      (fun tag arch =>
         if GoStrings.HasSuffix goFile (arch ++ ".go") then "_" ++ arch
         else tag)
      archs "" in
  let tag2 :=
    fold_left
      (fun tag sys =>
         if GoStrings.HasSuffix goFile (sys ++ tag ++ ".go")
         then "_" ++ sys ++ tag else tag)
      operatingSystems tag1 in
  if (String.length tag2 =? 0)%nat then "default" else tag2.

(** The condition of the documentation on the name before [.go]: it ends
    with [_GOOS], [_GOARCH] or [_GOOS_GOARCH]. *)
Definition has_target_suffix (stem : string) : bool :=
  existsb (fun arch => GoStrings.HasSuffix stem ("_" ++ arch)) archs
  || existsb (fun sys => GoStrings.HasSuffix stem ("_" ++ sys)) operatingSystems
  || existsb
       (fun sys =>
          existsb
            (fun arch => GoStrings.HasSuffix stem ("_" ++ sys ++ "_" ++ arch))
            archs)
       operatingSystems.

(** One call of [walkFn] by [filepath.Walk]: the path, the error handed
    in, the entry's [os.FileInfo] and what [ioutil.ReadFile(path)]
    gives for it. *)
Record walk_entry : Type := mkEntry {
  wpath : string;
  werr : option error;
  winfo : FileInfo;
  wread : list byte + error
}.

Definition walkFn (tag : string) (fileSystems : gmap string Files)
           (e : walk_entry) : gmap string Files + error :=
  match werr e with
  | Some err => inr err
  | None =>
      let content :=
        if FileInfo_.IsDir (winfo e) then inl [] else wread e in
      match content with
      | inr err => inr err
      | inl content =>
          let bundle := default ∅ (fileSystems !! tag) in
          let file :=
            {| Filename := FileInfo_.Name (winfo e);
               Mode := FileInfo_.Mode (winfo e);
               ModTime := FileInfo_.ModTime (winfo e);
               Content := content; compression := None_;
               reader := None; path := ""; fs := false |} in
          inl (<[tag := <[wpath e := file]> bundle]> fileSystems)
      end
  end.

Fixpoint walk_all (tag : string) (fileSystems : gmap string Files)
         (entries : list walk_entry) : gmap string Files + error :=
  match entries with
  | [] => inl fileSystems
  | e :: rest =>
      match walkFn tag fileSystems e with
      | inr err => inr err
      | inl fss => walk_all tag fss rest
      end
  end.

(** [buildFS]; [Walk root] lists the calls [filepath.Walk(root, walkFn)]
    makes on the build host. *)
Fixpoint buildFS_from (Walk : string -> list walk_entry)
         (fileSystems : gmap string Files) (includedFiles : list includedFile)
  : gmap string Files + error :=
  match includedFiles with
  | [] => inl fileSystems
  | file :: rest =>
      match walk_all (buildTag (goFile file)) fileSystems
                     (Walk (includedPath file)) with
      | inr err => inr err
      | inl fss => buildFS_from Walk fss rest
      end
  end.

Definition buildFS (Walk : string -> list walk_entry)
           (includedFiles : list includedFile) : gmap string Files + error :=
  buildFS_from Walk {["default" := ∅]} includedFiles.

(** A record as [walkFn] builds it: tag None, never opened, and no
    content when it is a directory. *)
Definition freshly_built (f : File) : Prop :=
  compression f = None_ /\ reader f = None
  /\ (FileMode.IsDir (Mode f) = true -> Content f = []).

(** [Generate] after [buildFS]: every bundle is encoded. *)
Definition encode_bundles {E : Externals} (compress : Compression)
           (fileSystems : gmap string Files) : gmap string Files :=
  FileSystem.Encode compress <$> fileSystems.

(** [remove]: [append(slice[:s], slice[s+1:]...)].  The slice expression
    [slice[s+1:]] panics when [s+1] exceeds the length. *)
Definition remove (slice : list string) (s : nat) : outcome (list string) :=
  if (s <? List.length slice)%nat
  then Returned (take s slice ++ drop (S s) slice)%list
  else Panicked "runtime error: slice bounds out of range".

(** [strings.Split(s, "\n")]. *)
Fixpoint split_lines (s : string) : list string :=
  match s with
  | EmptyString => [EmptyString]
  | String c s' =>
      if Ascii.eqb c "010"%char then EmptyString :: split_lines s'
      else match split_lines s' with
           | h :: t => String c h :: t
           | [] => [String c EmptyString]
           end
  end.

(** The loop of [detectIncluded] over the lines of an include file:
    [paths[i] = strings.TrimSpace(paths[i])], and an empty line is removed
    with [i--], so that the next round looks at the same index.
    [TrimSpace] is the function of package strings. *)
Fixpoint trim_loop (TrimSpace : string -> string) (fuel i : nat)
         (paths : list string) : outcome (list string) :=
  match fuel with
  | O => OutOfFuel
  | S k =>
      if (i <? List.length paths)%nat then
        let trimmed := TrimSpace (default "" (paths !! i)) in
        let paths1 := <[i := trimmed]> paths in
        if String.eqb trimmed "" then
          match remove paths1 i with
          | Returned paths2 => trim_loop TrimSpace k i paths2
          | Panicked m => Panicked m
          | OutOfFuel => OutOfFuel
          end
        else trim_loop TrimSpace k (S i) paths1
      else Returned paths
  end.

(** The paths an [IncludeFromFile] call contributes, from the content of
    the text file. *)
Definition include_file_paths (TrimSpace : string -> string)
           (content : string) : outcome (list string) :=
  let paths := split_lines content in
  trim_loop TrimSpace (S (List.length paths)) 0 paths.

(** The errors of [detectIncluded]: its own [errors.New], or the error of
    [os.Stat]. *)
Inductive detect_error : Type :=
  | RelativeOnly          (* "only supports relative include paths" *)
  | StatFailed (err : error).

(** The last loop of [detectIncluded]: absolute paths are refused, the
    path must exist ([os_Stat] gives the error of [os.Stat], if any), and
    one leading "./" is trimmed. *)
Fixpoint check_included (os_Stat : string -> option error)
         (includedFiles : list includedFile)
  : list includedFile + detect_error :=
  match includedFiles with
  | [] => inl []
  | file :: rest =>
      if filepath.IsAbs (includedPath file) then inr RelativeOnly
      else
        match os_Stat (includedPath file) with
        | Some err => inr (StatFailed err)
        | None =>
            match check_included os_Stat rest with
            | inr err => inr err
            | inl rest' =>
                inl ({| includedPath :=
                          GoStrings.TrimPrefix (includedPath file) "./";
                        goFile := goFile file |} :: rest')
            end
        end
  end.

End bincludegen.

(** ** Sample externals, used to run the definitions on concrete inputs *)

Module Sample.

(** Sniffing by magic number, three of the signatures mimetype knows. *)
Definition Detect (content : list byte) : string :=
  match content with
  | x89 :: x50 :: x4e :: x47 :: _ => "image/png"
  | x47 :: x49 :: x46 :: x38 :: _ => "image/gif"
  | _ => "text/plain; charset=utf-8"
  end.

(** A container that stores the bytes behind the two magic bytes of gzip. *)
Definition Write (c : list byte) : list byte := x1f :: x8b :: c.

Definition Read (d : list byte) : gzip_result :=
  match d with
  | x1f :: x8b :: c => GzOk c
  | _ => GzHeaderErr "gzip: invalid header"
  end.

(** Insertion sort, what [sort.Slice] runs on a short slice. *)
Fixpoint insert {A : Type} (less : A -> A -> bool) (x : A) (l : list A)
  : list A :=
  match l with
  | [] => [x]
  | y :: l' => if less x y then x :: y :: l' else y :: insert less x l'
  end.

Definition insertion_sort {A : Type} (l : list A) (less : A -> A -> bool)
  : list A :=
  fold_left (fun acc x => insert less x acc) l [].

Definition externals : Externals :=
  {| mimetype_Detect := Detect;
     gzip_Write := Write;
     gzip_Read := Read;
     sort_Slice := insertion_sort |}.

Definition regular (nm : string) (perm : Z) (content : list byte) : File :=
  {| Filename := nm; Mode := perm; ModTime := 0; Content := content;
     compression := None_; reader := None; path := ""; fs := false |}.

Definition directory (nm : string) : File :=
  {| Filename := nm; Mode := Z.lor FileMode.ModeDir 493; ModTime := 0;
     Content := []; compression := None_; reader := None; path := "";
     fs := false |}.

Definition bytes (s : string) : list byte := list_byte_of_string s.

(** The store of the scenario: [a.txt], the directory [dir], [dir/b.txt]. *)
Definition entries : list (string * File) :=
  [("a.txt", regular "a.txt" 420 (bytes "hello"));
   ("dir", directory "dir");
   ("dir/b.txt", regular "b.txt" 384 (bytes "world"))].

Definition store : Files := list_to_map entries.


Definition png : list byte :=
  [x89; x50; x4e; x47; x0d; x0a; x1a; x0a; x00; x00].

End Sample.

(** * Properties *)

(** ** Strings *)

Section string_facts.

Lemma substring_whole (s : string) : substring 0 (String.length s) s = s.
Proof. induction s as [|c s IH]; simpl; [reflexivity | now rewrite IH]. Qed.

Lemma substring_none (s : string) : substring 0 0 s = "".
Proof. destruct s; reflexivity. Qed.

Lemma TrimPrefix_dot_slash (p : string) :
  GoStrings.TrimPrefix ("./" ++ p) "./" = p.
Proof.
  unfold GoStrings.TrimPrefix, GoStrings.HasPrefix. simpl.
  rewrite substring_none. simpl.
  rewrite Nat.sub_0_r. apply substring_whole.
Qed.

Lemma TrimPrefix_without (p prefix : string) :
  GoStrings.HasPrefix p prefix = false -> GoStrings.TrimPrefix p prefix = p.
Proof. unfold GoStrings.TrimPrefix. now intros ->. Qed.

Lemma ltb_irrefl (a : string) : GoStrings.ltb a a = false.
Proof.
  induction a as [|c a IH]; simpl; [reflexivity|].
  now rewrite N.ltb_irrefl.
Qed.

Lemma N_of_ascii_inj (x y : ascii) : N_of_ascii x = N_of_ascii y -> x = y.
Proof.
  intros H. rewrite <- (ascii_N_embedding x), <- (ascii_N_embedding y).
  now rewrite H.
Qed.

Lemma ltb_trans (a b c : string) :
  GoStrings.ltb a b = true -> GoStrings.ltb b c = true ->
  GoStrings.ltb a c = true.
Proof.
  revert b c. induction a as [|x a IH]; intros [|y b] [|z c]; simpl;
    try discriminate; try reflexivity.
  destruct (N.ltb_spec (N_of_ascii x) (N_of_ascii y)) as [Hxy|Hxy];
  destruct (N.ltb_spec (N_of_ascii y) (N_of_ascii z)) as [Hyz|Hyz];
  destruct (N.ltb_spec (N_of_ascii x) (N_of_ascii z)) as [Hxz|Hxz];
    try reflexivity; try lia.
  - destruct (N.ltb_spec (N_of_ascii z) (N_of_ascii y)); [discriminate|lia].
  - destruct (N.ltb_spec (N_of_ascii y) (N_of_ascii x)); [discriminate|lia].
  - destruct (N.ltb_spec (N_of_ascii y) (N_of_ascii x)) as [|H1];
      [discriminate|].
    destruct (N.ltb_spec (N_of_ascii z) (N_of_ascii y)) as [|H2];
      [discriminate|].
    destruct (N.ltb_spec (N_of_ascii z) (N_of_ascii x)) as [|H3]; [lia|].
    apply IH.
Qed.

Lemma ltb_total (a b : string) :
  GoStrings.ltb a b = false -> GoStrings.ltb b a = false -> a = b.
Proof.
  revert b. induction a as [|x a IH]; intros [|y b]; simpl;
    try discriminate; try reflexivity.
  destruct (N.ltb_spec (N_of_ascii x) (N_of_ascii y)) as [Hxy|Hxy];
    [discriminate|].
  destruct (N.ltb_spec (N_of_ascii y) (N_of_ascii x)) as [Hyx|Hyx];
    [discriminate|].
  intros H1 H2. f_equal.
  - apply N_of_ascii_inj. lia.
  - now apply IH.
Qed.

End string_facts.

(** ** Hexadecimal text *)

Section hex_facts.

Lemma Decode_EncodeByte (v : byte) (rest : list byte) :
  hex.Decode (hex.EncodeByte v ++ rest) =
  match hex.Decode rest with
  | inl d => inl (v :: d)
  | inr e => inr e
  end.
Proof.
  unfold hex.EncodeByte.
  change (hex.Decode ([?a; ?b] ++ rest)) with (hex.Decode (a :: b :: rest)).
  destruct v; reflexivity.
Qed.

Lemma Decode_Encode (src : list byte) :
  hex.Decode (hex.Encode src) = inl src.
Proof.
  unfold hex.Encode. induction src as [|v src IH]; [reflexivity|].
  change (hex.Decode (hex.EncodeByte v ++ concat (map hex.EncodeByte src))
          = inl (v :: src)).
  now rewrite Decode_EncodeByte, IH.
Qed.

Lemma Decode_EncodeToString (src : list byte) :
  hex.Decode (list_byte_of_string (hex.EncodeToString src)) = inl src.
Proof.
  unfold hex.EncodeToString.
  rewrite list_byte_of_string_of_list_byte. apply Decode_Encode.
Qed.

Lemma length_Encode (src : list byte) :
  List.length (hex.Encode src) = 2 * List.length src.
Proof.
  unfold hex.Encode. induction src as [|v src IH]; [reflexivity|].
  simpl. simpl in IH. rewrite IH. lia.
Qed.

End hex_facts.

(** ** Compression and decompression *)

Section compression_facts.
Context {E : Externals}.

Lemma shouldCompress_spec (content : list byte) :
  shouldCompress content = false <-> mimetype_Detect content ∈ compressExcl.
Proof.
  unfold shouldCompress. rewrite negb_false_iff, existsb_exists.
  split.
  - intros (x & Hin & Heq). apply String.eqb_eq in Heq. subst x.
    now apply list_elem_of_In.
  - intros Hin. exists (mimetype_Detect content). split.
    + now apply list_elem_of_In.
    + apply String.eqb_refl.
Qed.

Lemma shouldCompress_true (content : list byte) :
  mimetype_Detect content ∉ compressExcl -> shouldCompress content = true.
Proof.
  intros Hout. destruct (shouldCompress content) eqn:Hs; [reflexivity|].
  now apply shouldCompress_spec in Hs.
Qed.

Lemma encode_file_excluded (algo : Compression) (f : File) :
  mimetype_Detect (Content f) ∈ compressExcl ->
  FileSystem.encode_file algo f = f.
Proof.
  intros Hin. apply shouldCompress_spec in Hin.
  unfold FileSystem.encode_file. rewrite Hin.
  now rewrite orb_true_r.
Qed.

Lemma encode_file_directory (algo : Compression) (f : File) :
  FileMode.IsDir (Mode f) = true -> FileSystem.encode_file algo f = f.
Proof. unfold FileSystem.encode_file. now intros ->. Qed.

Lemma encode_file_compressible (algo : Compression) (f : File) :
  FileMode.IsDir (Mode f) = false ->
  mimetype_Detect (Content f) ∉ compressExcl ->
  FileSystem.encode_file algo f =
  set_Content
    (list_byte_of_string
       (hex.EncodeToString
          (match algo with
           | Gzip => gzip_Write (Content f)
           | None_ => Content f
           end)))
    (set_compression algo f).
Proof.
  intros Hdir Hout. unfold FileSystem.encode_file.
  now rewrite Hdir, (shouldCompress_true _ Hout).
Qed.

Lemma Decompress_all_decodable (ord : list string) (files : Files) :
  NoDup ord ->
  (forall p f, p ∈ ord -> files !! p = Some f ->
               exists dst, FileSystem.decode_file f = inl dst) ->
  exists files',
    FileSystem.Decompress ord files = (files', None)
    /\ forall p, files' !! p =
                 if decide (p ∈ ord) then FileSystem.decoded <$> files !! p
                 else files !! p.
Proof.
  revert files. induction ord as [|q ord IH]; intros files Hnd Hdec.
  - exists files. split; [reflexivity|]. intros p.
    destruct (decide (p ∈ [])) as [Hin|]; [|reflexivity].
    now apply elem_of_nil in Hin.
  - apply NoDup_cons in Hnd as [Hq Hnd]. simpl.
    destruct (files !! q) as [file|] eqn:Hfile.
    + destruct (Hdec q file) as [dst Hdst]; [left | assumption |].
      rewrite Hdst.
      destruct (IH (<[q := set_Content dst file]> files) Hnd)
        as (files' & Hrun & Hlook).
      { intros p f Hp. rewrite lookup_insert_ne by (intros ->; contradiction).
        intros Hf. apply (Hdec p f); [now right | assumption]. }
      exists files'. split; [assumption|]. intros p. rewrite Hlook.
      destruct (decide (p = q)) as [->|Hne].
      * rewrite decide_False by assumption.
        rewrite decide_True by left.
        rewrite lookup_insert_eq, Hfile. simpl. unfold FileSystem.decoded.
        now rewrite Hdst.
      * rewrite lookup_insert_ne by congruence.
        destruct (decide (p ∈ ord)) as [Hin|Hout].
        -- rewrite decide_True by (now right). reflexivity.
        -- rewrite decide_False; [reflexivity|].
           intros Hin. apply elem_of_cons in Hin as [?|?]; contradiction.
    + destruct (IH files Hnd) as (files' & Hrun & Hlook).
      { intros p f Hp. apply Hdec. now right. }
      exists files'. split; [assumption|]. intros p. rewrite Hlook.
      destruct (decide (p = q)) as [->|Hne].
      * rewrite decide_False by assumption.
        rewrite decide_True by left. now rewrite Hfile.
      * destruct (decide (p ∈ ord)) as [Hin|Hout].
        -- rewrite decide_True by (now right). reflexivity.
        -- rewrite decide_False; [reflexivity|].
           intros Hin. apply elem_of_cons in Hin as [?|?]; contradiction.
Qed.

(** [Decompress] writes the field [Content] only, whatever it returns. *)
Lemma Decompress_frame (ord : list string) (files files' : Files)
      (err : option error) :
  FileSystem.Decompress ord files = (files', err) ->
  forall p, set_Content [] <$> files' !! p = set_Content [] <$> files !! p.
Proof.
  revert files. induction ord as [|q ord IH]; intros files Hrun p.
  - simpl in Hrun. now inversion Hrun.
  - simpl in Hrun. destruct (files !! q) as [file|] eqn:Hfile.
    + destruct (FileSystem.decode_file file) as [dst|e].
      * rewrite (IH _ Hrun p).
        destruct (decide (p = q)) as [->|Hne].
        -- rewrite lookup_insert_eq, Hfile. reflexivity.
        -- now rewrite lookup_insert_ne by congruence.
      * now inversion Hrun.
    + now apply IH.
Qed.

End compression_facts.

Lemma decode_encode_file (E : Externals) (f : File) :
  gzip_inverse E ->
  (FileMode.IsDir (Mode f) = false ->
   mimetype_Detect (Content f) ∉ compressExcl) ->
  (FileMode.IsDir (Mode f) = true ->
   Content f = [] /\ compression f = None_) ->
  FileSystem.decode_file (FileSystem.encode_file Gzip f) = inl (Content f).
Proof.
  intros Hgzip Hreg Hdir.
  destruct (FileMode.IsDir (Mode f)) eqn:Hmode.
  - rewrite encode_file_directory by assumption.
    destruct Hdir as [Hc Ht]; [reflexivity|].
    unfold FileSystem.decode_file. now rewrite Hc, Ht.
  - rewrite encode_file_compressible by auto.
    unfold FileSystem.decode_file. simpl.
    rewrite Decode_EncodeToString. now rewrite Hgzip.
Qed.


(** Stores given by their list of entries. *)
Lemma range_order_list_to_map (l : list (string * File)) :
  NoDup l.*1 -> range_order (list_to_map l) l.*1.
Proof.
  intros Hnd. split; [assumption|]. intros p.
  rewrite <- not_eq_None_Some, <- not_elem_of_list_to_map.
  split; [auto|]. intros H. destruct (decide (p ∈ l.*1)); tauto.
Qed.

Lemma lookup_list_to_map_elem (l : list (string * File)) (p : string) (f : File) :
  (list_to_map l : Files) !! p = Some f -> (p, f) ∈ l.
Proof. apply elem_of_list_to_map_2. Qed.

Ltac decide_by_compute :=
  apply (bool_decide_unpack _); vm_compute; exact I.

Lemma range_order_dom (files : Files) (ord : list string) :
  NoDup ord -> dom files = list_to_set ord -> range_order files ord.
Proof.
  intros Hnd Hdom. split; [assumption|]. intros p.
  rewrite <- elem_of_dom, Hdom. now rewrite elem_of_list_to_set.
Qed.

Ltac range_order_by_compute :=
  apply range_order_dom; [decide_by_compute | vm_compute; reflexivity].

Ltac entries_cases H :=
  apply lookup_list_to_map_elem in H;
  repeat (apply elem_of_cons in H as [H|H]; [inversion H; subst; clear H|]);
  try (now apply elem_of_nil in H).

Lemma Sample_gzip_inverse : gzip_inverse Sample.externals.
Proof. intros c. reflexivity. Qed.


Lemma EncodeToString_differs (c : list byte) :
  c <> [] -> c <> list_byte_of_string (hex.EncodeToString c).
Proof.
  intros Hne Heq. apply (f_equal (@List.length byte)) in Heq.
  unfold hex.EncodeToString in Heq.
  rewrite list_byte_of_string_of_list_byte, length_Encode in Heq.
  destruct c; [congruence|]. simpl in Heq. lia.
Qed.

Lemma decode_file_bad_first_byte (E : Externals) (f : File) (b : byte)
      (tl : list byte) :
  Content f = b :: tl -> hex.fromHexChar b = None ->
  FileSystem.decode_file f = inr (InvalidByteError b).
Proof.
  intros Hc Hb. unfold FileSystem.decode_file. rewrite Hc.
  destruct tl as [|q tl]; simpl; now rewrite Hb.
Qed.

Lemma Decompress_fails_on_raw (E : Externals) (ord : list string)
      (files : Files) (p : string) (f : File) (b : byte) (tl : list byte) :
  p ∈ ord -> files !! p = Some f ->
  Content f = b :: tl -> hex.fromHexChar b = None ->
  exists files' e, FileSystem.Decompress ord files = (files', Some e).
Proof.
  intros Hin Hf Hc Hb. revert files Hin Hf.
  induction ord as [|q ord IH]; intros files Hin Hf.
  - now apply elem_of_nil in Hin.
  - simpl. destruct (decide (q = p)) as [->|Hne].
    + rewrite Hf, (decode_file_bad_first_byte E f b tl Hc Hb). eauto.
    + apply elem_of_cons in Hin as [Hin|Hin]; [congruence|].
      destruct (files !! q) as [g|] eqn:Hg; [|now apply IH].
      destruct (FileSystem.decode_file g) as [dst|e]; [|eauto].
      apply IH; [assumption|]. now rewrite lookup_insert_ne.
Qed.

(** C2.  What [Compress] does to a record whose sniffed type is in the
    exclusion list: the record is skipped altogether.  Its tag is left as it
    was and no gzip stage runs, but its [Content] is not replaced by the
    hexadecimal text either: it stays the raw bytes.  [Decompress], which
    decodes every record from hexadecimal text, then returns an error on
    the compressed store as soon as such a record starts with a byte that
    is no hexadecimal digit. *)
Theorem Compress_leaves_excluded_raw (E : Externals) (files : Files)
        (algo : Compression) (ord : list string) (p : string) (f : File)
        (b : byte) (tl : list byte) :
  files !! p = Some f ->
  mimetype_Detect (Content f) ∈ compressExcl ->
  Content f = b :: tl ->
  hex.fromHexChar b = None ->
  range_order files ord ->
  FileSystem.Compress algo files !! p = Some f
  /\ Content f <> list_byte_of_string (hex.EncodeToString (Content f))
  /\ exists files' e,
      FileSystem.Decompress ord (FileSystem.Compress algo files)
      = (files', Some e).
Proof.
  intros Hf Hin Hc Hb [_ Hkeys].
  assert (Hfc : FileSystem.Compress algo files !! p = Some f).
  { unfold FileSystem.Compress, FileSystem.Encode.
    rewrite lookup_fmap, Hf. simpl. f_equal.
    now apply encode_file_excluded. }
  split; [assumption|]. split.
  - apply EncodeToString_differs. now rewrite Hc.
  - apply (Decompress_fails_on_raw E ord _ p f b tl); try assumption.
    apply Hkeys. eauto.
Qed.

Lemma Compress_leaves_excluded_raw_witness :
  let files : Files :=
    list_to_map [("logo.png", Sample.regular "logo.png" 420 Sample.png)] in
  @FileSystem.Compress Sample.externals Gzip files !! "logo.png"
  = Some (Sample.regular "logo.png" 420 Sample.png)
  /\ Sample.png <> list_byte_of_string (hex.EncodeToString Sample.png)
  /\ exists files' e,
      @FileSystem.Decompress Sample.externals ["logo.png"]
        (@FileSystem.Compress Sample.externals Gzip files)
      = (files', Some e).
Proof.
  intros files.
  apply (Compress_leaves_excluded_raw Sample.externals files Gzip
           ["logo.png"] "logo.png"
           (Sample.regular "logo.png" 420 Sample.png) x89 (tl Sample.png)).
  - vm_compute. reflexivity.
  - vm_compute. do 4 right. left.
  - vm_compute. reflexivity.
  - vm_compute. reflexivity.
  - range_order_by_compute.
Defined.

(** The entry "image/jpg" of the exclusion list is not the type
    "image/jpeg": content sniffed as "image/jpeg" is compressed. *)
Lemma shouldCompress_jpeg (E : Externals) (content : list byte) :
  mimetype_Detect content = "image/jpeg" -> shouldCompress content = true.
Proof. intros H. unfold shouldCompress. now rewrite H. Qed.

(** C10.  [Decompress] never writes the compression tag.  Whatever it
    returns (an error or not), every record carries afterwards the tag it
    carried before, so a record tagged Gzip is still tagged Gzip; in
    particular after [Compress(Gzip)] and [Decompress] a compressible
    regular file is tagged Gzip, whatever its tag was before the
    compression, and a further [Decompress] meets it with that tag. *)
Theorem Decompress_keeps_compression_tag (E : Externals) :
  (forall (ord : list string) (files files' : Files) (err : option error),
      FileSystem.Decompress ord files = (files', err) ->
      forall p, compression <$> files' !! p = compression <$> files !! p)
  /\ (forall (ord : list string) (files files' : Files) (err : option error)
             (p : string) (f : File),
         files !! p = Some f ->
         FileMode.IsDir (Mode f) = false ->
         mimetype_Detect (Content f) ∉ compressExcl ->
         FileSystem.Decompress ord (FileSystem.Compress Gzip files)
         = (files', err) ->
         compression <$> files' !! p = Some Gzip).
Proof.
  assert (Hkeep : forall ord files files' err,
             FileSystem.Decompress ord files = (files', err) ->
             forall p, compression <$> files' !! p = compression <$> files !! p).
  { intros ord files files' err Hrun p.
    pose proof (Decompress_frame ord files files' err Hrun p) as Hframe.
    destruct (files' !! p) as [a|], (files !! p) as [c|]; simpl in *;
      try discriminate; [|reflexivity].
    inversion Hframe. reflexivity. }
  split; [exact Hkeep|].
  intros ord files files' err p f Hf Hdir Hout Hrun.
  rewrite (Hkeep _ _ _ _ Hrun p).
  unfold FileSystem.Compress, FileSystem.Encode.
  rewrite lookup_fmap, Hf. simpl.
  now rewrite encode_file_compressible.
Qed.

Lemma Decompress_keeps_compression_tag_witness :
  let run :=
    @FileSystem.Decompress Sample.externals ["a.txt"; "dir"; "dir/b.txt"]
      (@FileSystem.Compress Sample.externals Gzip Sample.store) in
  snd run = None
  /\ compression <$> Sample.store !! "a.txt" = Some None_
  /\ compression <$> fst run !! "a.txt" = Some Gzip
  /\ compression <$> fst run !! "a.txt"
     = compression <$>
         @FileSystem.Compress Sample.externals Gzip Sample.store !! "a.txt".
Proof.
  intros run.
  destruct (Decompress_keeps_compression_tag Sample.externals) as [Hkeep Hgz].
  split; [vm_compute; reflexivity|].
  split; [vm_compute; reflexivity|]. split.
  - apply (Hgz ["a.txt"; "dir"; "dir/b.txt"] Sample.store (fst run) (snd run)
               "a.txt" (Sample.regular "a.txt" 420 (Sample.bytes "hello"))).
    + vm_compute. reflexivity.
    + vm_compute. reflexivity.
    + vm_compute. intros Hin.
      repeat (apply elem_of_cons in Hin as [Hin|Hin]; [discriminate|]).
      now apply elem_of_nil in Hin.
    + apply surjective_pairing.
  - apply (Hkeep ["a.txt"; "dir"; "dir/b.txt"] _ (fst run) (snd run)).
    apply surjective_pairing.
Defined.

(** ** The bundle key *)

(** C3.  The bundle key of a declaring file, evaluated.  [net_linux.go]
    and [net_windows_amd64.go] give [_linux] and [_windows_amd64], and
    [main.go] gives [default].  The suffix test of the source leaves out
    the underscore: [alarm.go], whose name before [.go] ends with none of
    [_<arch>], [_<os>], [_<os>_<arch>], is keyed [_arm] instead of
    [default], and [vendorjs.go] is keyed [_js]. *)
Theorem buildTag_evaluated :
  bincludegen.buildTag "net_linux.go" = "_linux"
  /\ bincludegen.buildTag "net_windows_amd64.go" = "_windows_amd64"
  /\ bincludegen.buildTag "main.go" = "default"
  /\ bincludegen.has_target_suffix "alarm" = false
  /\ bincludegen.buildTag "alarm.go" = "_arm"
  /\ bincludegen.has_target_suffix "vendorjs" = false
  /\ bincludegen.buildTag "vendorjs.go" = "_js".
Proof. repeat split; vm_compute; reflexivity. Qed.

(** ** Opening, reading and closing *)

Lemma Open_found (files : Files) (nm : string) (f : File) :
  files !! GoStrings.TrimPrefix nm "./" = Some f ->
  FileSystem.Open files nm
  = (<[GoStrings.TrimPrefix nm "./" :=
         opened (GoStrings.TrimPrefix nm "./") f]> files,
     inl (GoStrings.TrimPrefix nm "./")).
Proof. unfold FileSystem.Open. now intros ->. Qed.

Lemma Open_inv (files files1 : Files) (nm : string) (h : handle) :
  FileSystem.Open files nm = (files1, inl h) ->
  h = GoStrings.TrimPrefix nm "./"
  /\ exists f, files !! h = Some f /\ files1 = <[h := opened h f]> files.
Proof.
  unfold FileSystem.Open.
  destruct (files !! GoStrings.TrimPrefix nm "./") as [f|] eqn:Hf;
    intros Heq; inversion Heq; subst.
  split; [reflexivity|]. eauto.
Qed.

(** C5 (as amended).  [Open] of a name that, once one leading "./" is
    removed, is no key of the store returns the NotFound error and leaves
    the store as it was; and for every path [p] that does not itself begin
    with "./", [Open("./" + p)] and [Open(p)] give the same result. *)
Theorem Open_NotFound_and_dot_slash :
  (forall (files : Files) (nm : string),
      files !! GoStrings.TrimPrefix nm "./" = None ->
      FileSystem.Open files nm
      = (files, inr (NotFound (GoStrings.TrimPrefix nm "./"))))
  /\ (forall (files : Files) (p : string),
         GoStrings.HasPrefix p "./" = false ->
         FileSystem.Open files ("./" ++ p) = FileSystem.Open files p).
Proof.
  split.
  - intros files nm Hnone. unfold FileSystem.Open. now rewrite Hnone.
  - intros files p Hp. unfold FileSystem.Open.
    now rewrite TrimPrefix_dot_slash, (TrimPrefix_without p "./" Hp).
Qed.

Lemma Open_NotFound_and_dot_slash_witness :
  FileSystem.Open Sample.store "missing.txt"
  = (Sample.store, inr (NotFound "missing.txt"))
  /\ FileSystem.Open Sample.store ("./" ++ "dir/b.txt")
     = FileSystem.Open Sample.store "dir/b.txt".
Proof.
  destruct Open_NotFound_and_dot_slash as [Hmissing Hsame].
  split.
  - apply (Hmissing Sample.store "missing.txt"). vm_compute. reflexivity.
  - apply (Hsame Sample.store "dir/b.txt"). vm_compute. reflexivity.
Defined.

(** C5 as stated fails for a path that begins with "./": with the key
    [a.txt] in the store, [Open("./a.txt")] finds the record of [a.txt],
    while [Open("././a.txt")] looks up "./a.txt" and returns NotFound. *)
Lemma Open_dot_slash_counterexample :
  snd (FileSystem.Open Sample.store "./a.txt") = inl "a.txt"
  /\ snd (FileSystem.Open Sample.store ("./" ++ "./a.txt"))
     = inr (NotFound "./a.txt")
  /\ FileSystem.Open Sample.store ("./" ++ "./a.txt")
     <> FileSystem.Open Sample.store "./a.txt".
Proof.
  assert (H1 : snd (FileSystem.Open Sample.store "./a.txt") = inl "a.txt")
    by (vm_compute; reflexivity).
  assert (H2 : snd (FileSystem.Open Sample.store ("./" ++ "./a.txt"))
               = inr (NotFound "./a.txt")) by (vm_compute; reflexivity).
  split; [exact H1|]. split; [exact H2|].
  intros Heq. rewrite Heq, H1 in H2. discriminate.
Qed.

Lemma wrap64_small (z : Z) : (0 <= z < 2 ^ 63)%Z -> wrap64 z = z.
Proof.
  intros Hz. unfold wrap64.
  rewrite Z.mod_small; lia.
Qed.

Lemma set_reader_set_reader (a b : option Reader.t) (f : File) :
  set_reader a (set_reader b f) = set_reader a f.
Proof. reflexivity. Qed.

Lemma set_reader_same (f : File) : set_reader (reader f) f = f.
Proof. now destruct f. Qed.

Lemma take_drop_length {A : Type} (n : nat) (l : list A) :
  (take n l ++ drop (List.length (take n l)) l)%list = l.
Proof.
  destruct (le_lt_dec n (List.length l)) as [Hle|Hgt].
  - rewrite length_take_le by assumption. apply take_drop.
  - rewrite take_ge by lia. rewrite drop_all. apply app_nil_r.
Qed.

(** The reading loop ends, with all the bytes from the reading index on. *)
Lemma read_to_EOF_all (chunk : nat) (sl : list byte) :
  0 < chunk ->
  forall (fuel k : nat) (f : File) (acc : list byte),
    reader f = Some {| Reader.s := sl; Reader.i := Z.of_nat k |} ->
    k <= List.length sl ->
    List.length sl - k < fuel ->
    read_to_EOF fuel chunk f acc
    = Returned
        (set_reader
           (Some {| Reader.s := sl; Reader.i := Z.of_nat (List.length sl) |}) f,
         (acc ++ drop k sl)%list).
Proof.
  intros Hchunk fuel. induction fuel as [|fuel IH]; intros k f acc Hr Hk Hfuel.
  - lia.
  - simpl. unfold File_.Read. rewrite Hr. unfold Reader.Read, Reader.len.
    cbn [Reader.s Reader.i].
    destruct (Z.leb_spec (Z.of_nat (List.length sl)) (Z.of_nat k)) as [Hle|Hlt].
    + assert (k = List.length sl) by lia. subst k.
      rewrite drop_all. reflexivity.
    + assert (Hk' : k < List.length sl) by lia.
      rewrite Nat2Z.id.
      set (data := take chunk (drop k sl)).
      assert (Hlen : List.length data = Nat.min chunk (List.length sl - k)).
      { unfold data. now rewrite length_take, length_drop. }
      rewrite (IH (k + List.length data) _ (acc ++ data)%list).
      * rewrite set_reader_set_reader. f_equal. f_equal.
        rewrite <- app_assoc. f_equal.
        rewrite <- drop_drop. apply take_drop_length.
      * simpl. do 2 f_equal. lia.
      * lia.
      * lia.
Qed.

Lemma ReadAll_opened (nm : string) (f : File) :
  exists f',
    ReadAll (opened nm f) = Returned (f', Content f)
    /\ set_reader None f' = set_reader None (opened nm f).
Proof.
  eexists. split.
  - unfold ReadAll.
    apply (read_to_EOF_all 512 (Content f)) with (k := 0).
    + lia.
    + reflexivity.
    + lia.
    + unfold read_fuel, opened. cbn [reader Reader.NewReader Reader.s]. lia.
  - reflexivity.
Qed.

Lemma Read_nil_reader (files : Files) (h : handle) (f : File) (n : nat) :
  files !! h = Some f -> reader f = None ->
  Handle.Read files h n = Panicked nil_dereference.
Proof. intros Hf Hr. unfold Handle.Read, File_.Read. now rewrite Hf, Hr. Qed.

Lemma Close_reader (files : Files) (h : handle) (f : File) :
  files !! h = Some f ->
  Handle.Close files h !! h = Some (set_reader None f).
Proof. intros Hf. unfold Handle.Close. rewrite Hf. apply lookup_insert_eq. Qed.

Lemma Stat_found (files : Files) (nm : string) (f : File) :
  files !! GoStrings.TrimPrefix nm "./" = Some f ->
  let h := GoStrings.TrimPrefix nm "./" in
  FileSystem.Stat files nm
  = (<[h := set_reader None (opened h f)]> files, inl (File_.Stat f)).
Proof.
  intros Hf h. unfold FileSystem.Stat. rewrite (Open_found files nm f Hf).
  fold h. rewrite lookup_insert_eq. unfold Handle.Close.
  rewrite lookup_insert_eq, insert_insert_eq. reflexivity.
Qed.

Lemma ReadFile_found (files : Files) (nm : string) (f : File) :
  files !! GoStrings.TrimPrefix nm "./" = Some f ->
  let h := GoStrings.TrimPrefix nm "./" in
  FileSystem.ReadFile files nm
  = Returned (<[h := set_reader None (opened h f)]> files, inl (Content f)).
Proof.
  intros Hf h. unfold FileSystem.ReadFile. rewrite (Open_found files nm f Hf).
  fold h. rewrite lookup_insert_eq.
  destruct (ReadAll_opened h f) as (f' & -> & Hf').
  unfold Handle.Close. rewrite lookup_insert_eq, !insert_insert_eq.
  unfold File_.Close. now rewrite Hf'.
Qed.

(** C9.  The handle of [Open(p)] is the stored record, and [Stat] and
    [ReadFile] close it.  After [Open(p)] has returned the handle [h], the
    record stored under [h] is the opened one and reads through [h]
    return; [fs.Stat(p)] and [fs.ReadFile(p)] then succeed and leave the
    reader of that same record nil, so that every later [Read] through [h]
    stops with the nil dereference. *)
Theorem Stat_closes_earlier_handle (files files1 : Files) (p : string)
        (h : handle) :
  FileSystem.Open files p = (files1, inl h) ->
  (exists f, files !! h = Some f /\ files1 !! h = Some (opened h f))
  /\ (forall n, exists files' res,
         Handle.Read files1 h n = Returned (files', res))
  /\ (exists info files2,
         FileSystem.Stat files1 p = (files2, inl info)
         /\ reader <$> files2 !! h = Some None
         /\ forall n, Handle.Read files2 h n = Panicked nil_dereference)
  /\ (exists data files2,
         FileSystem.ReadFile files1 p = Returned (files2, inl data)
         /\ reader <$> files2 !! h = Some None
         /\ forall n, Handle.Read files2 h n = Panicked nil_dereference).
Proof.
  intros Hopen. apply Open_inv in Hopen as (Hh & f & Hf & ->).
  assert (H1 : (<[h := opened h f]> files) !! GoStrings.TrimPrefix p "./"
               = Some (opened h f)).
  { rewrite <- Hh. apply lookup_insert_eq. }
  split; [|split; [|split]].
  - exists f. split; [assumption|]. apply lookup_insert_eq.
  - intros n. unfold Handle.Read. rewrite lookup_insert_eq.
    unfold File_.Read, opened. cbn [reader].
    destruct (Reader.Read (Reader.NewReader (Content f)) n) as [r' res].
    eauto.
  - rewrite (Stat_found _ p _ H1). rewrite <- Hh.
    eexists _, _. split; [reflexivity|].
    rewrite lookup_insert_eq. split; [reflexivity|].
    intros n. eapply Read_nil_reader; [apply lookup_insert_eq | reflexivity].
  - rewrite (ReadFile_found _ p _ H1). rewrite <- Hh.
    eexists _, _. split; [reflexivity|].
    rewrite lookup_insert_eq. split; [reflexivity|].
    intros n. eapply Read_nil_reader; [apply lookup_insert_eq | reflexivity].
Qed.

Lemma Stat_closes_earlier_handle_witness :
  let files1 := fst (FileSystem.Open Sample.store "dir/b.txt") in
  exists info files2,
    FileSystem.Stat files1 "dir/b.txt" = (files2, inl info)
    /\ reader <$> files2 !! "dir/b.txt" = Some None
    /\ forall n, Handle.Read files2 "dir/b.txt" n = Panicked nil_dereference.
Proof.
  intros files1.
  destruct (Stat_closes_earlier_handle Sample.store files1 "dir/b.txt"
              "dir/b.txt") as (_ & _ & Hstat & _).
  - vm_compute. reflexivity.
  - exact Hstat.
Defined.

(** C6 (as amended).  Every [Open(p)] stores a fresh reader at offset 0 in
    the stored record and returns that record: a second [Open(p)], in
    whatever state the store is by then, returns the same handle and puts
    the position seen through the first handle back to 0, and a [Read] of
    [n] bytes through the second handle moves the position seen through the
    first handle to the number of bytes read. *)
Theorem Open_twice_shares_cursor (files files1 files1' files2 : Files)
        (p : string) (h1 h2 : handle) (n : nat) :
  FileSystem.Open files p = (files1, inl h1) ->
  FileSystem.Open files1' p = (files2, inl h2) ->
  (Z.of_nat n < 2 ^ 63)%Z ->
  h2 = h1
  /\ Handle.position files2 h1 = Returned (inl 0%Z)
  /\ exists f files3 err,
      files1' !! h2 = Some f
      /\ Handle.Read files2 h2 n = Returned (files3, (take n (Content f), err))
      /\ Handle.position files3 h1
         = Returned (inl (Z.of_nat (List.length (take n (Content f))))).
Proof.
  intros Ho1 Ho2 Hn.
  apply Open_inv in Ho1 as (Hh1 & f0 & Hf0 & ->).
  apply Open_inv in Ho2 as (Hh2 & f & Hf & ->).
  rewrite <- Hh1 in Hh2. subst h2. clear Hh1.
  split; [reflexivity|]. split.
  - unfold Handle.position, Handle.Seek. rewrite lookup_insert_eq.
    reflexivity.
  - exists f. unfold Handle.Read. rewrite lookup_insert_eq.
    unfold File_.Read, opened. cbn [reader].
    unfold Reader.Read, Reader.len, Reader.NewReader. cbn [Reader.s Reader.i].
    destruct (Z.leb_spec (Z.of_nat (List.length (Content f))) 0) as [Hle|Hlt].
    + assert (Hnil : Content f = []).
      { destruct (Content f); [reflexivity | simpl in Hle; lia]. }
      eexists _, _. split; [assumption|]. split.
      * rewrite Hnil, take_nil. reflexivity.
      * unfold Handle.position, Handle.Seek. rewrite lookup_insert_eq.
        rewrite Hnil, take_nil. reflexivity.
    + eexists _, _. split; [assumption|]. split.
      * reflexivity.
      * unfold Handle.position, Handle.Seek. rewrite lookup_insert_eq.
        unfold File_.Seek, set_reader. cbn [reader].
        unfold Reader.Seek. cbn [Reader.s Reader.i]. simpl Z.eqb.
        cbn match. rewrite Z.add_0_l, Z.add_0_r.
        change (drop (Z.to_nat 0) (Content f)) with (Content f).
        rewrite wrap64_small.
        -- destruct (Z.ltb_spec (Z.of_nat (List.length (take n (Content f)))) 0);
             [lia | reflexivity].
        -- rewrite length_take. lia.
Qed.

Lemma Open_twice_shares_cursor_witness :
  let files1 := fst (FileSystem.Open Sample.store "a.txt") in
  let files2 := fst (FileSystem.Open files1 "a.txt") in
  Handle.position files2 "a.txt" = Returned (inl 0%Z)
  /\ exists f files3 err,
      files1 !! "a.txt" = Some f
      /\ Handle.Read files2 "a.txt" 2
         = Returned (files3, (take 2 (Content f), err))
      /\ Handle.position files3 "a.txt"
         = Returned (inl (Z.of_nat (List.length (take 2 (Content f))))).
Proof.
  intros files1 files2.
  destruct (Open_twice_shares_cursor Sample.store files1 files1 files2
              "a.txt" "a.txt" "a.txt" 2) as (_ & Hpos & Hread).
  - vm_compute. reflexivity.
  - vm_compute. reflexivity.
  - vm_compute. reflexivity.
  - split; [exact Hpos | exact Hread].
Defined.

(** C6 as stated fails: after two [Open("a.txt")], reading two bytes
    through the second handle moves the position seen through the first
    handle from 0 to 2. *)
Lemma Open_independent_cursor_counterexample :
  let open1 := FileSystem.Open Sample.store "a.txt" in
  let open2 := FileSystem.Open (fst open1) "a.txt" in
  let files3 :=
    match Handle.Read (fst open2) "a.txt" 2 with
    | Returned (files', _) => files'
    | _ => fst open2
    end in
  snd open1 = inl "a.txt"
  /\ snd open2 = inl "a.txt"
  /\ Handle.Read (fst open2) "a.txt" 2
     = Returned (files3, (Sample.bytes "he", None))
  /\ Handle.position (fst open2) "a.txt" = Returned (inl 0%Z)
  /\ Handle.position files3 "a.txt" = Returned (inl 2%Z)
  /\ Handle.position files3 "a.txt" <> Handle.position (fst open2) "a.txt".
Proof.
  intros open1 open2 files3.
  assert (H0 : Handle.position (fst open2) "a.txt" = Returned (inl 0%Z))
    by (vm_compute; reflexivity).
  assert (H2 : Handle.position files3 "a.txt" = Returned (inl 2%Z))
    by (vm_compute; reflexivity).
  split; [vm_compute; reflexivity|]. split; [vm_compute; reflexivity|].
  split; [vm_compute; reflexivity|].
  split; [exact H0|]. split; [exact H2|].
  rewrite H0, H2. discriminate.
Qed.

(** ** Copying to the host *)

Lemma OpenFile_allowed (host : Host) (dst : string) (perm : Z) :
  dst ∉ hdenied host ->
  os.OpenFile host dst perm
  = inl (set_hfiles
           (<[dst := {| hperm := match hfiles host !! dst with
                                  | Some old => hperm old
                                  | None => Z.ldiff perm (humask host)
                                  end;
                        hdata := [] |}]> (hfiles host))
           host).
Proof.
  intros Hok. unfold os.OpenFile. rewrite decide_False by assumption.
  now destruct (hfiles host !! dst).
Qed.

Lemma Write_truncated (host : Host) (m : gmap string HostFile) (dst : string)
      (p : Z) (data : list byte) :
  let part := match hquota host !! dst with
              | Some limit => take limit data
              | None => data
              end in
  os.Write (set_hfiles (<[dst := {| hperm := p; hdata := [] |}]> m) host)
           dst data
  = (set_hfiles (<[dst := {| hperm := p; hdata := part |}]> m) host,
     if (List.length part <? List.length data)%nat
     then Some (HostError "write" dst) else None).
Proof.
  intros part. unfold os.Write, os.taken, set_hfiles.
  cbn [hfiles hquota hdenied humask].
  rewrite lookup_insert_eq, alter_insert_eq. cbn [hdata hperm app].
  subst part. destruct (hquota host !! dst) as [limit|]; [|reflexivity].
  now rewrite Nat.sub_0_r.
Qed.

(** [CopyFile] of a record of the store to a destination the host lets
    be opened: the source is left closed, the destination holds the bytes
    the host took, with the mode it had or, when it is new, the mode of
    the record less the umask; the error is that of a write cut short. *)
Lemma CopyFile_found (files : Files) (host : Host) (src dst : string)
      (f : File) :
  files !! GoStrings.TrimPrefix src "./" = Some f ->
  dst ∉ hdenied host ->
  let h := GoStrings.TrimPrefix src "./" in
  let p := match hfiles host !! dst with
           | Some old => hperm old
           | None => Z.ldiff (FileMode.Perm (Mode f)) (humask host)
           end in
  let part := match hquota host !! dst with
              | Some limit => take limit (Content f)
              | None => Content f
              end in
  FileSystem.CopyFile files host src dst
  = Returned (<[h := set_reader None (opened h f)]> files,
              set_hfiles (<[dst := {| hperm := p; hdata := part |}]>
                            (hfiles host)) host,
              if (List.length part <? List.length (Content f))%nat
              then Some (HostError "write" dst) else None).
Proof.
  intros Hf Hok h p part. unfold FileSystem.CopyFile.
  rewrite (Open_found files src f Hf). fold h.
  rewrite lookup_insert_eq.
  change (FileMode.Perm (FileInfo_.Mode (File_.Stat (opened h f))))
    with (FileMode.Perm (Mode f)).
  rewrite (OpenFile_allowed host dst _ Hok). fold p.
  rewrite (read_to_EOF_all (32 * 1024) (Content f)) with (k := 0).
  - change ([] ++ drop 0 (Content f))%list with (Content f).
    rewrite Write_truncated. fold part.
    unfold Handle.Close. rewrite lookup_insert_eq, !insert_insert_eq.
    change (File_.Close (set_reader None (opened h f)))
      with (set_reader None (opened h f)).
    destruct (List.length part <? List.length (Content f))%nat;
      [reflexivity|].
    unfold os.Stat, set_hfiles. cbn [hfiles].
    now rewrite lookup_insert_eq.
  - lia.
  - reflexivity.
  - lia.
  - unfold read_fuel, opened. cbn [reader Reader.NewReader Reader.s]. lia.
Qed.

Lemma ldiff_keeps_iff (p m : Z) : Z.ldiff p m = p -> Z.land p m = 0%Z.
Proof.
  intros Heq. rewrite <- Heq at 1. apply Z.bits_inj'. intros n Hn.
  rewrite Z.land_spec, Z.ldiff_spec, Z.bits_0.
  destruct (Z.testbit p n), (Z.testbit m n); reflexivity.
Qed.

(** C7.  What [CopyFile] does with content and permission bits.  When the
    source is a record of the store, the host lets the destination be
    opened and takes all the bytes, [CopyFile] returns no error, the
    destination then holds exactly the bytes of the record's [Content]
    and no other host file changes; but a destination that did not exist
    gets the permission bits of the record's [Mode] less those of the
    umask of the process, since the bits are only handed to
    [os.OpenFile] and no [Chmod] follows: whenever the umask clears a bit
    of the record's mode, the bits of the new host file are not those of
    the record.  When the source is no record of the store, [CopyFile]
    returns the NotFound error and the host (and the store) are as
    before. *)
Theorem CopyFile_permissions_less_umask (files : Files) (host : Host)
        (src dst : string) :
  (forall f,
      files !! GoStrings.TrimPrefix src "./" = Some f ->
      dst ∉ hdenied host ->
      (forall limit, hquota host !! dst = Some limit ->
                     (List.length (Content f) <= limit)%nat) ->
      exists files' host' hf,
        FileSystem.CopyFile files host src dst = Returned (files', host', None)
        /\ hfiles host' !! dst = Some hf
        /\ hdata hf = Content f
        /\ (hfiles host !! dst = None ->
            hperm hf = Z.ldiff (FileMode.Perm (Mode f)) (humask host)
            /\ (Z.land (FileMode.Perm (Mode f)) (humask host) <> 0%Z ->
                hperm hf <> FileMode.Perm (Mode f)))
        /\ (forall q, q <> dst -> hfiles host' !! q = hfiles host !! q))
  /\ (files !! GoStrings.TrimPrefix src "./" = None ->
      FileSystem.CopyFile files host src dst
      = Returned (files, host,
                  Some (NotFound (GoStrings.TrimPrefix src "./")))).
Proof.
  split.
  - intros f Hf Hok Hroom.
    rewrite (CopyFile_found files host src dst f Hf Hok).
    assert (Hpart : match hquota host !! dst with
                    | Some limit => take limit (Content f)
                    | None => Content f
                    end = Content f).
    { destruct (hquota host !! dst) as [limit|] eqn:Hq; [|reflexivity].
      apply take_ge. now apply Hroom. }
    rewrite Hpart, Nat.ltb_irrefl.
    eexists _, _, _. split; [reflexivity|].
    unfold set_hfiles. cbn [hfiles].
    split; [apply lookup_insert_eq|]. split; [reflexivity|]. split.
    + intros Hnew. rewrite Hnew. cbn [hperm]. split; [reflexivity|].
      intros Hbits Heq. apply Hbits. now apply ldiff_keeps_iff.
    + intros q Hq. now rewrite lookup_insert_ne by congruence.
  - intros Hnone. unfold FileSystem.CopyFile, FileSystem.Open.
    now rewrite Hnone.
Qed.

Lemma CopyFile_permissions_less_umask_witness :
  let files : Files :=
    {["notes.txt" := Sample.regular "notes.txt" 438 (Sample.bytes "memo")]} in
  let host := {| hfiles := ∅; hdenied := ∅; humask := 18; hquota := ∅ |} in
  (exists files' host' hf,
      FileSystem.CopyFile files host "notes.txt" "/tmp/notes.txt"
      = Returned (files', host', None)
      /\ hfiles host' !! "/tmp/notes.txt" = Some hf
      /\ hdata hf = Sample.bytes "memo"
      /\ hperm hf = 420%Z
      /\ hperm hf <> FileMode.Perm
                       (Mode (Sample.regular "notes.txt" 438 (Sample.bytes "memo"))))
  /\ FileSystem.CopyFile files host "missing.txt" "/tmp/notes.txt"
     = Returned (files, host, Some (NotFound "missing.txt")).
Proof.
  intros files host.
  destruct (CopyFile_permissions_less_umask files host
              "notes.txt" "/tmp/notes.txt") as [Hcopy _].
  destruct (CopyFile_permissions_less_umask files host
              "missing.txt" "/tmp/notes.txt") as [_ Hmissing].
  split.
  - destruct (Hcopy (Sample.regular "notes.txt" 438 (Sample.bytes "memo")))
      as (files' & host' & hf & Hrun & Hlook & Hdata & Hperm & _).
    + vm_compute. reflexivity.
    + apply not_elem_of_empty.
    + intros limit Hq. vm_compute in Hq. discriminate Hq.
    + destruct Hperm as [Hp Hne]; [vm_compute; reflexivity|].
      exists files', host', hf. repeat split; try assumption.
      apply Hne. vm_compute. discriminate.
  - apply Hmissing. vm_compute. reflexivity.
Defined.

(** ** Closed handles *)

Lemma closed_insert (files : Files) (h q : handle) (g : File) :
  reader <$> files !! h = Some None ->
  (q = h -> reader g = None) ->
  reader <$> <[q := g]> files !! h = Some None.
Proof.
  intros Hc Hg. destruct (decide (q = h)) as [->|Hne].
  - rewrite lookup_insert_eq. simpl. now rewrite Hg.
  - now rewrite lookup_insert_ne by assumption.
Qed.

Lemma Close_insert (files : Files) (h : handle) (g : File) :
  Handle.Close (<[h := g]> files) h = <[h := set_reader None g]> files.
Proof.
  unfold Handle.Close. now rewrite lookup_insert_eq, insert_insert_eq.
Qed.

Lemma Open_keeps_closed (files : Files) (nm : string) (h : handle) :
  GoStrings.TrimPrefix nm "./" <> h ->
  reader <$> files !! h = Some None ->
  reader <$> (FileSystem.Open files nm).1 !! h = Some None.
Proof.
  intros Hne Hc. unfold FileSystem.Open.
  destruct (files !! GoStrings.TrimPrefix nm "./") as [g|]; [|exact Hc].
  cbn [fst]. now rewrite lookup_insert_ne by assumption.
Qed.

(** A method that opens a record and closes it again leaves the record
    closed, and every other record as it was. *)
Lemma reopened_and_closed (files : Files) (h0 h : handle) (g : File) :
  reader <$> files !! h = Some None ->
  reader <$> <[h0 := set_reader None (opened h0 g)]> files !! h = Some None.
Proof. intros Hc. now apply closed_insert. Qed.

Lemma run_call_keeps_closed (E : Externals) (st st' : Files * Host)
      (c : call) (h : handle) :
  reopens h c = false ->
  run_call st c = Returned st' ->
  reader <$> st.1 !! h = Some None ->
  reader <$> st'.1 !! h = Some None.
Proof.
  destruct st as [files host]. cbn [fst].
  intros Hre Hrun Hc. destruct c as [nm|nm|nm|ord nm|src dst|h' n|h' o w|h'];
    cbn [run_call] in Hrun.
  - inversion Hrun; subst; clear Hrun. cbn [fst].
    apply Open_keeps_closed; [|assumption].
    cbn [reopens] in Hre. now apply String.eqb_neq.
  - inversion Hrun; subst; clear Hrun. cbn [fst].
    destruct (files !! GoStrings.TrimPrefix nm "./") as [g|] eqn:Hg.
    + rewrite (Stat_found files nm g Hg). now apply reopened_and_closed.
    + unfold FileSystem.Stat, FileSystem.Open. now rewrite Hg.
  - destruct (files !! GoStrings.TrimPrefix nm "./") as [g|] eqn:Hg.
    + rewrite (ReadFile_found files nm g Hg) in Hrun.
      inversion Hrun; subst; clear Hrun. now apply reopened_and_closed.
    + unfold FileSystem.ReadFile, FileSystem.Open in Hrun.
      rewrite Hg in Hrun. now inversion Hrun; subst.
  - inversion Hrun; subst; clear Hrun. cbn [fst].
    unfold FileSystem.ReadDir.
    destruct (files !! GoStrings.TrimPrefix nm "./") as [g|] eqn:Hg.
    + rewrite (Open_found files nm g Hg), lookup_insert_eq, Close_insert.
      now apply reopened_and_closed.
    + unfold FileSystem.Open. now rewrite Hg.
  - destruct (files !! GoStrings.TrimPrefix src "./") as [g|] eqn:Hg.
    + destruct (decide (dst ∈ hdenied host)) as [Hden|Hok].
      * unfold FileSystem.CopyFile in Hrun.
        rewrite (Open_found files src g Hg), lookup_insert_eq in Hrun.
        unfold os.OpenFile in Hrun. rewrite decide_True in Hrun by assumption.
        rewrite Close_insert in Hrun.
        inversion Hrun; subst; clear Hrun. now apply reopened_and_closed.
      * rewrite (CopyFile_found files host src dst g Hg Hok) in Hrun.
        inversion Hrun; subst; clear Hrun. now apply reopened_and_closed.
    + unfold FileSystem.CopyFile, FileSystem.Open in Hrun.
      rewrite Hg in Hrun. now inversion Hrun; subst.
  - unfold Handle.Read in Hrun.
    destruct (files !! h') as [g|] eqn:Hg; [|discriminate].
    destruct (File_.Read g n) as [[g' res]| |] eqn:Hread; try discriminate.
    inversion Hrun; subst; clear Hrun. cbn [fst].
    apply closed_insert; [assumption|]. intros ->.
    rewrite Hg in Hc. simpl in Hc. unfold File_.Read in Hread.
    assert (Hnil : reader g = None) by congruence.
    rewrite Hnil in Hread. discriminate.
  - unfold Handle.Seek in Hrun.
    destruct (files !! h') as [g|] eqn:Hg; [|discriminate].
    destruct (File_.Seek g o w) as [[g' res]| |] eqn:Hseek; try discriminate.
    inversion Hrun; subst; clear Hrun. cbn [fst].
    apply closed_insert; [assumption|]. intros ->.
    rewrite Hg in Hc. simpl in Hc. unfold File_.Seek in Hseek.
    assert (Hnil : reader g = None) by congruence.
    rewrite Hnil in Hseek. discriminate.
  - inversion Hrun; subst; clear Hrun. cbn [fst].
    unfold Handle.Close. destruct (files !! h') as [g|]; [|assumption].
    now apply closed_insert.
Qed.

Lemma run_calls_keeps_closed (E : Externals) (cs : list call)
      (st st' : Files * Host) (h : handle) :
  forallb (fun c => negb (reopens h c)) cs = true ->
  run_calls st cs = Returned st' ->
  reader <$> st.1 !! h = Some None ->
  reader <$> st'.1 !! h = Some None.
Proof.
  revert st. induction cs as [|c cs IH]; intros st Hcs Hrun Hc.
  - cbn [run_calls] in Hrun. now inversion Hrun; subst.
  - cbn [forallb] in Hcs. apply andb_prop in Hcs as [Hre Hcs].
    apply negb_true_iff in Hre. cbn [run_calls] in Hrun.
    destruct (run_call st c) as [st1| |] eqn:Hstep; try discriminate.
    apply (IH st1 Hcs Hrun).
    exact (run_call_keeps_closed E st st1 c h Hre Hstep Hc).
Qed.

Lemma Read_closed (files : Files) (h : handle) (n : nat) :
  reader <$> files !! h = Some None ->
  Handle.Read files h n = Panicked nil_dereference.
Proof.
  intros Hc. destruct (files !! h) as [g|] eqn:Hg; [|discriminate].
  apply (Read_nil_reader files h g n Hg). simpl in Hc. congruence.
Qed.

Lemma Read_opened (files : Files) (nm : string) (g : File) (n : nat) :
  files !! GoStrings.TrimPrefix nm "./" = Some g ->
  Content g <> [] ->
  let h := GoStrings.TrimPrefix nm "./" in
  exists files',
    Handle.Read (FileSystem.Open files nm).1 h n
    = Returned (files', (take n (Content g), None)).
Proof.
  intros Hg Hne h. rewrite (Open_found files nm g Hg). fold h. cbn [fst].
  unfold Handle.Read. rewrite lookup_insert_eq.
  unfold File_.Read, opened. cbn [reader].
  unfold Reader.Read, Reader.NewReader, Reader.len. cbn [Reader.s Reader.i].
  destruct (Z.leb_spec (Z.of_nat (List.length (Content g))) 0) as [Hle|Hgt].
  - destruct (Content g); [congruence|]. simpl in Hle. lia.
  - eexists. reflexivity.
Qed.

(** C8 (as amended).  [Close] sets the reader of the record to nil, and
    a [Read] through the handle then stops with the run-time error of a
    nil dereference until the record is opened again.  For every handle
    of a record of the store: after [Close], and after any further calls
    on the file system and its handles that return and among which there
    is no [Open] of the same path, the reader of the record is nil and
    every [Read] through the handle, whatever the size of its buffer,
    panics: it returns no error value, no EOF and no data.  Once the path
    is opened again, a [Read] through the handle returns the leading
    bytes of the record's content. *)
Theorem Read_after_Close_until_reopened (E : Externals) (files : Files)
        (host : Host) (h : handle) (f : File) (cs : list call)
        (files' : Files) (host' : Host) :
  files !! h = Some f ->
  forallb (fun c => negb (reopens h c)) cs = true ->
  run_calls (Handle.Close files h, host) cs = Returned (files', host') ->
  reader <$> Handle.Close files h !! h = Some None
  /\ reader <$> files' !! h = Some None
  /\ (forall n, Handle.Read files' h n = Panicked nil_dereference)
  /\ (forall n files'' res, Handle.Read files' h n <> Returned (files'', res))
  /\ (forall nm g n,
         GoStrings.TrimPrefix nm "./" = h ->
         files' !! h = Some g ->
         Content g <> [] ->
         exists files'',
           Handle.Read (FileSystem.Open files' nm).1 h n
           = Returned (files'', (take n (Content g), None))).
Proof.
  intros Hf Hcs Hrun.
  assert (Hc0 : reader <$> Handle.Close files h !! h = Some None).
  { now rewrite (Close_reader files h f Hf). }
  assert (Hc : reader <$> files' !! h = Some None).
  { exact (run_calls_keeps_closed E cs _ (files', host') h Hcs Hrun Hc0). }
  assert (Hread : forall n, Handle.Read files' h n = Panicked nil_dereference).
  { intros n. now apply Read_closed. }
  split; [exact Hc0|]. split; [exact Hc|]. split; [exact Hread|]. split.
  - intros n files'' res. now rewrite Hread.
  - intros nm g n Hnm Hg Hne. subst h. now apply Read_opened.
Qed.

Lemma Read_after_Close_until_reopened_witness :
  let files := (FileSystem.Open Sample.store "a.txt").1 in
  let host := {| hfiles := ∅; hdenied := ∅; humask := 18; hquota := ∅ |} in
  let cs := [CallStat "a.txt"; CallReadFile "./a.txt";
             CallOpen "dir/b.txt"; CallRead "dir/b.txt" 2;
             CallCopyFile "a.txt" "/tmp/a.txt"; CallClose "dir/b.txt"] in
  let st := match run_calls (E := Sample.externals)
                    (Handle.Close files "a.txt", host) cs with
            | Returned st => st
            | _ => (∅, host)
            end in
  run_calls (E := Sample.externals) (Handle.Close files "a.txt", host) cs
  = Returned st
  /\ reader <$> st.1 !! "a.txt" = Some None
  /\ Handle.Read st.1 "a.txt" 3 = Panicked nil_dereference
  /\ exists files'',
       Handle.Read (FileSystem.Open st.1 "./a.txt").1 "a.txt" 3
       = Returned (files'', (Sample.bytes "hel", None)).
Proof.
  intros files host cs st.
  assert (Hrun : run_calls (E := Sample.externals)
                   (Handle.Close files "a.txt", host) cs
                 = Returned (st.1, st.2))
    by (vm_compute; reflexivity).
  destruct (Read_after_Close_until_reopened Sample.externals files host
              "a.txt"
              (opened "a.txt"
                 (Sample.regular "a.txt" 420 (Sample.bytes "hello")))
              cs st.1 st.2)
    as (_ & Hnil & Hread & _ & Hopen).
  - vm_compute. reflexivity.
  - vm_compute. reflexivity.
  - exact Hrun.
  - split; [vm_compute; reflexivity|]. split; [exact Hnil|].
    split; [exact (Hread 3%nat)|].
    apply (Hopen "./a.txt"
             (set_reader None
                (opened "a.txt"
                   (Sample.regular "a.txt" 420 (Sample.bytes "hello"))))
             3%nat).
    + vm_compute. reflexivity.
    + vm_compute. reflexivity.
    + discriminate.
Defined.

(** The claim as written fails: on the sample store, the [Read] that
    follows [Close] returns no error value (it panics), and once
    ["a.txt"] has been opened again a [Read] through the same handle
    returns data. *)
Lemma Read_after_Close_counterexample :
  let files := (FileSystem.Open Sample.store "a.txt").1 in
  let closed := Handle.Close files "a.txt" in
  let reopened := (FileSystem.Open closed "a.txt").1 in
  (FileSystem.Open Sample.store "a.txt").2 = inl "a.txt"
  /\ (forall files' data err,
         Handle.Read closed "a.txt" 3
         <> Returned (files', (data, Some err)))
  /\ (FileSystem.Open closed "a.txt").2 = inl "a.txt"
  /\ exists files',
       Handle.Read reopened "a.txt" 3
       = Returned (files', (Sample.bytes "hel", None)).
Proof.
  intros files closed reopened.
  split; [vm_compute; reflexivity|]. split.
  - intros files' data err.
    assert (Hp : Handle.Read closed "a.txt" 3 = Panicked nil_dereference)
      by (vm_compute; reflexivity).
    rewrite Hp. discriminate.
  - split; [vm_compute; reflexivity|].
    exists (match Handle.Read reopened "a.txt" 3 with
            | Returned (files', _) => files'
            | _ => ∅
            end).
    vm_compute. reflexivity.
Defined.

(** ** Listing a directory *)

Section readdir_facts.

Lemma less_Name_strict_weak_order : strict_weak_order FileSystem.less_Name.
Proof.
  unfold FileSystem.less_Name. repeat split.
  - intros x. apply ltb_irrefl.
  - intros x y z. apply ltb_trans.
  - rewrite (ltb_total _ _ H H0), (ltb_total _ _ H1 H2). apply ltb_irrefl.
  - rewrite (ltb_total _ _ H H0), (ltb_total _ _ H1 H2). apply ltb_irrefl.
Qed.

Lemma Readdir_bind (files : Files) (ord : list string) (f : File) :
  File_.Readdir files ord f
  = ord ≫= (fun p =>
              match files !! p with
              | Some file =>
                  if String.eqb (filepath.Dir p) (File_.fileDir f)
                  then [File_.Stat file] else []
              | None => []
              end).
Proof.
  unfold File_.Readdir.
  set (g := fun p : string =>
              match files !! p with
              | Some file =>
                  if String.eqb (filepath.Dir p) (File_.fileDir f)
                  then [File_.Stat file] else []
              | None => []
              end).
  set (step := fun (infos : list FileInfo) (p : string) => _).
  assert (Hacc : forall acc, fold_left step ord acc = (acc ++ (ord ≫= g))%list).
  { induction ord as [|p ord IH]; intros acc; simpl.
    - now rewrite app_nil_r.
    - rewrite IH. unfold step, g. destruct (files !! p) as [file|].
      + destruct (String.eqb (filepath.Dir p) (File_.fileDir f)).
        * now rewrite <- app_assoc.
        * reflexivity.
      + reflexivity. }
  apply Hacc.
Qed.

Lemma range_order_Permutation (files : Files) (ord : list string) :
  range_order files ord -> ord ≡ₚ (map_to_list files).*1.
Proof.
  intros [Hnd Hkeys]. apply NoDup_Permutation.
  - assumption.
  - apply NoDup_fst_map_to_list.
  - intros p. rewrite Hkeys, list_elem_of_fmap. split.
    + intros [f Hf]. exists (p, f). split; [reflexivity|].
      now apply elem_of_map_to_list.
    + intros ([q f] & -> & Hin). apply elem_of_map_to_list in Hin. eauto.
Qed.

Lemma bind_entries (files : Files) (d : string) (l : list (string * File)) :
  (forall pf, pf ∈ l -> files !! pf.1 = Some pf.2) ->
  l.*1 ≫= (fun p =>
             match files !! p with
             | Some file =>
                 if String.eqb (filepath.Dir p) d then [File_.Stat file] else []
             | None => []
             end)
  = (fun pf : string * File => File_.Stat pf.2)
      <$> filter (fun pf : string * File => filepath.Dir pf.1 = d) l.
Proof.
  induction l as [|[p f] l IH]; intros Hl; [reflexivity|].
  assert (Hpf : files !! p = Some f) by (apply (Hl (p, f)); left).
  cbn [fmap list_fmap fst mbind list_bind]. rewrite Hpf.
  rewrite IH by (intros pf Hin; apply Hl; now right).
  rewrite filter_cons. simpl.
  destruct (String.eqb_spec (filepath.Dir p) d) as [Heq|Hne].
  - now rewrite decide_True by assumption.
  - now rewrite decide_False by assumption.
Qed.

(** The loop of [Readdir] collects the entries of the listed directory. *)
Lemma Readdir_Permutation (files : Files) (ord : list string) (f : File) :
  range_order files ord ->
  File_.Readdir files ord f ≡ₚ dir_infos files (File_.fileDir f).
Proof.
  intros Hord. rewrite Readdir_bind.
  rewrite (range_order_Permutation files ord Hord).
  unfold dir_infos. rewrite bind_entries; [reflexivity|].
  intros [p g] Hin. now apply elem_of_map_to_list in Hin.
Qed.

Lemma elem_of_dir_infos (files : Files) (d : string) (info : FileInfo) :
  info ∈ dir_infos files d <->
  exists p f, files !! p = Some f /\ filepath.Dir p = d /\ info = File_.Stat f.
Proof.
  unfold dir_infos. rewrite list_elem_of_fmap. split.
  - intros ([p f] & -> & Hin). apply list_elem_of_filter in Hin as [Hd Hin].
    apply elem_of_map_to_list in Hin. eauto.
  - intros (p & f & Hf & Hd & ->). exists (p, f). split; [reflexivity|].
    apply list_elem_of_filter. split; [assumption|].
    now apply elem_of_map_to_list.
Qed.

End readdir_facts.

Lemma Readdir_Permutation_stat (files0 files : Files) (ord : list string)
      (f : File) :
  (forall p, File_.Stat <$> files !! p = File_.Stat <$> files0 !! p) ->
  range_order files ord ->
  File_.Readdir files ord f ≡ₚ dir_infos files0 (File_.fileDir f).
Proof.
  intros Hstat [Hnd Hkeys].
  assert (Hord0 : range_order files0 ord).
  { split; [assumption|]. intros p. rewrite Hkeys.
    rewrite <- !fmap_is_Some with (f := File_.Stat). now rewrite Hstat. }
  rewrite <- (Readdir_Permutation files0 ord f Hord0).
  rewrite !Readdir_bind.
  assert (Heq : forall l : list string,
             l ≫= (fun p =>
                     match files !! p with
                     | Some file =>
                         if String.eqb (filepath.Dir p) (File_.fileDir f)
                         then [File_.Stat file] else []
                     | None => []
                     end)
             = l ≫= (fun p =>
                       match files0 !! p with
                       | Some file =>
                           if String.eqb (filepath.Dir p) (File_.fileDir f)
                           then [File_.Stat file] else []
                       | None => []
                       end)).
  { induction l as [|p l IH]; [reflexivity|].
    cbn [mbind list_bind]. rewrite IH. f_equal.
    specialize (Hstat p).
    destruct (files !! p) as [a|], (files0 !! p) as [b|]; simpl in Hstat;
      try discriminate; [|reflexivity].
    assert (Hab : File_.Stat a = File_.Stat b) by congruence.
    now rewrite Hab. }
  now rewrite Heq.
Qed.

Lemma ReadDir_one_call (E : Externals) (Hsort : sort_contract E)
      (ord : list string) (files0 files : Files) (dirname : string)
      (f : File) :
  (forall p, File_.Stat <$> files !! p = File_.Stat <$> files0 !! p) ->
  range_order files ord ->
  files !! GoStrings.TrimPrefix dirname "./" = Some f ->
  let h := GoStrings.TrimPrefix dirname "./" in
  exists list,
    FileSystem.ReadDir ord files dirname
    = (<[h := set_reader None (opened h f)]> files, inl list)
    /\ sorted_by FileSystem.less_Name list
    /\ list ≡ₚ dir_infos files0 (listed_dir h f).
Proof.
  intros Hstat Hord Hf h. unfold FileSystem.ReadDir.
  rewrite (Open_found files dirname f Hf). fold h. fold h in Hf.
  clearbody h.
  rewrite lookup_insert_eq. unfold Handle.Close.
  rewrite lookup_insert_eq, insert_insert_eq.
  eexists. split; [reflexivity|].
  destruct (Hsort (File_.Readdir (<[h := opened h f]> files) ord (opened h f))
                  FileSystem.less_Name less_Name_strict_weak_order)
    as [Hperm Hsorted].
  split; [assumption|]. rewrite Hperm.
  apply (Readdir_Permutation_stat files0).
  - intros p. rewrite <- Hstat. destruct (decide (p = h)) as [->|Hne].
    + now rewrite lookup_insert_eq, Hf.
    + now rewrite lookup_insert_ne by congruence.
  - destruct Hord as [Hnd Hkeys]. split; [assumption|].
    intros p. rewrite Hkeys. destruct (decide (p = h)) as [->|Hne].
    + rewrite lookup_insert_eq, Hf. split; eauto.
    + now rewrite lookup_insert_ne by congruence.
Qed.


(** *** The sample sort meets the contract of [sort.Slice] *)

Section insertion_sort_facts.
Context {A : Type} (less : A -> A -> bool) (Hless : strict_weak_order less).

Lemma insert_Permutation (x : A) (l : list A) :
  Sample.insert less x l ≡ₚ x :: l.
Proof.
  induction l as [|y l IH]; simpl; [reflexivity|].
  destruct (less x y); [reflexivity|].
  rewrite IH. apply Permutation_swap.
Qed.

Lemma insertion_sort_Permutation (l : list A) :
  Sample.insertion_sort l less ≡ₚ l.
Proof.
  unfold Sample.insertion_sort.
  assert (Hacc : forall acc,
             fold_left (fun acc x => Sample.insert less x acc) l acc
             ≡ₚ (l ++ acc)%list).
  { induction l as [|x l IH]; intros acc; simpl; [reflexivity|].
    rewrite IH, insert_Permutation. symmetry. apply Permutation_middle. }
  rewrite Hacc. now rewrite app_nil_r.
Qed.

Lemma insert_sorted (x : A) (l : list A) :
  sorted_by less l -> sorted_by less (Sample.insert less x l).
Proof.
  destruct Hless as (Hirr & Htrans & _).
  unfold sorted_by. induction l as [|y l IH]; intros Hs; simpl.
  - repeat constructor.
  - apply StronglySorted_inv in Hs as [Hs Hall].
    destruct (less x y) eqn:Hxy.
    + constructor; [now constructor|].
      constructor.
      * destruct (less y x) eqn:Hyx; [|reflexivity].
        pose proof (Htrans _ _ _ Hxy Hyx) as Hxx. now rewrite Hirr in Hxx.
      * eapply Forall_impl; [exact Hall|]. intros z Hz. simpl in Hz.
        destruct (less z x) eqn:Hzx; [|reflexivity].
        now rewrite (Htrans _ _ _ Hzx Hxy) in Hz.
    + constructor; [now apply IH|].
      rewrite insert_Permutation. now constructor.
Qed.

Lemma insertion_sort_sorted (l : list A) :
  sorted_by less (Sample.insertion_sort l less).
Proof.
  unfold Sample.insertion_sort.
  assert (Hacc : forall acc,
             sorted_by less acc ->
             sorted_by less
               (fold_left (fun acc x => Sample.insert less x acc) l acc)).
  { induction l as [|x l IH]; intros acc Hs; simpl; [assumption|].
    apply IH. now apply insert_sorted. }
  apply Hacc. constructor.
Qed.

End insertion_sort_facts.

Lemma Sample_sort_contract : sort_contract Sample.externals.
Proof.
  intros l less Hless. split.
  - apply insertion_sort_Permutation.
  - now apply insertion_sort_sorted.
Qed.




(** ** Examples *)

Example Dir_examples :
  filepath.Dir "dir/b.txt" = "dir" /\ filepath.Dir "a.txt" = "."
  /\ filepath.Dir "a/b/../c/x" = "a/c" /\ filepath.Dir "/x" = "/"
  /\ filepath.Dir "d//x" = "d" /\ filepath.Dir "../../x" = "../..".
Proof. repeat split; reflexivity. Qed.

(** The scenario of the specification: [readDir("dir")] lists [b.txt],
    [readFile("a.txt")] returns [hello], [open("missing.txt")] fails. *)
Example scenario_store :
  (name <$> match snd (@FileSystem.ReadDir Sample.externals
                         ["a.txt"; "dir"; "dir/b.txt"] Sample.store "dir") with
            | inl l => l
            | inr _ => []
            end) = ["b.txt"]
  /\ match FileSystem.ReadFile Sample.store "a.txt" with
     | Returned (_, data) => data = inl (Sample.bytes "hello")
     | _ => False
     end
  /\ snd (FileSystem.Open Sample.store "missing.txt")
     = inr (NotFound "missing.txt").
Proof. vm_compute. repeat split; reflexivity. Qed.

(** The scenario of the partitioner: two declaring files that include the
    same tree give two bundles, each with its own copy. *)
Example scenario_bundles :
  let entry :=
    {| bincludegen.wpath := "asset/logo.txt"; bincludegen.werr := None;
       bincludegen.winfo :=
         {| name := "logo.txt"; mode := 420; modtime := 0; size := 2 |};
       bincludegen.wread := inl (Sample.bytes "hi") |} in
  let Walk := fun root : string =>
                if String.eqb root "asset" then [entry] else [] in
  let copy_in := fun tag : string =>
    match bincludegen.buildFS Walk
            [ {| bincludegen.includedPath := "asset";
                 bincludegen.goFile := "net_linux.go" |};
              {| bincludegen.includedPath := "asset";
                 bincludegen.goFile := "net_windows_amd64.go" |} ] with
    | inl bundles => Content <$> (bundles !! tag ≫= (.!! "asset/logo.txt"))
    | inr _ => None
    end in
  copy_in "_linux" = Some (Sample.bytes "hi")
  /\ copy_in "_windows_amd64" = Some (Sample.bytes "hi")
  /\ copy_in "default" = None.
Proof.
  intros entry Walk copy_in.
  split; [vm_compute; reflexivity|].
  split; vm_compute; reflexivity.
Qed.

(** * Further properties of the code *)

(** ** Reading whole files *)

Lemma persisted_insert_same (files : Files) (h : string) (f f' : File) :
  files !! h = Some f -> persisted f' = persisted f ->
  forall q, persisted <$> <[h := f']> files !! q = persisted <$> files !! q.
Proof.
  intros Hf Hp q. destruct (decide (q = h)) as [->|Hne].
  - rewrite lookup_insert_eq, Hf. simpl. now rewrite Hp.
  - now rewrite lookup_insert_ne by congruence.
Qed.

(** X1.  [ReadFile] returns exactly the stored bytes.  For a name whose
    record is in the store, whatever the state of its reader, [ReadFile]
    returns the whole [Content] and no error, leaves the reader of that
    record nil and changes the persisted fields of no record; for a name
    that is no key it returns the NotFound error and the store is as
    before. *)
Theorem ReadFile_returns_Content (files : Files) (nm : string) :
  (forall f,
      files !! GoStrings.TrimPrefix nm "./" = Some f ->
      exists files',
        FileSystem.ReadFile files nm = Returned (files', inl (Content f))
        /\ reader <$> files' !! GoStrings.TrimPrefix nm "./" = Some None
        /\ forall q, persisted <$> files' !! q = persisted <$> files !! q)
  /\ (files !! GoStrings.TrimPrefix nm "./" = None ->
      FileSystem.ReadFile files nm
      = Returned (files, inr (NotFound (GoStrings.TrimPrefix nm "./")))).
Proof.
  split.
  - intros f Hf. rewrite (ReadFile_found files nm f Hf).
    eexists. split; [reflexivity|]. split.
    + now rewrite lookup_insert_eq.
    + now apply (persisted_insert_same files _ f).
  - intros Hnone. unfold FileSystem.ReadFile, FileSystem.Open.
    now rewrite Hnone.
Qed.

Lemma ReadFile_returns_Content_witness :
  (exists files',
      FileSystem.ReadFile Sample.store "./dir/b.txt"
      = Returned (files', inl (Sample.bytes "world")))
  /\ FileSystem.ReadFile Sample.store "dir/c.txt"
     = Returned (Sample.store, inr (NotFound "dir/c.txt")).
Proof.
  destruct (ReadFile_returns_Content Sample.store "./dir/b.txt") as [Hfound _].
  destruct (ReadFile_returns_Content Sample.store "dir/c.txt") as [_ Hmissing].
  split.
  - destruct (Hfound (Sample.regular "b.txt" 384 (Sample.bytes "world")))
      as (files' & Hrun & _).
    + vm_compute. reflexivity.
    + exists files'. exact Hrun.
  - apply Hmissing. vm_compute. reflexivity.
Defined.

(** X2.  [ReadFile] can be repeated.  A second [ReadFile] of the same
    name, on the store the first call leaves, returns the same result and
    leaves the same store: the reader the first call used up and closed
    does not show in the second. *)
Theorem ReadFile_repeatable (files files1 : Files) (nm : string)
        (res : list byte + error) :
  FileSystem.ReadFile files nm = Returned (files1, res) ->
  FileSystem.ReadFile files1 nm = Returned (files1, res).
Proof.
  intros Hrun.
  destruct (files !! GoStrings.TrimPrefix nm "./") as [f|] eqn:Hf.
  - rewrite (ReadFile_found files nm f Hf) in Hrun.
    inversion Hrun; subst files1 res. clear Hrun.
    set (h := GoStrings.TrimPrefix nm "./") in *.
    rewrite (ReadFile_found _ nm (set_reader None (opened h f)))
      by apply lookup_insert_eq.
    fold h. now rewrite insert_insert_eq.
  - unfold FileSystem.ReadFile, FileSystem.Open in Hrun.
    rewrite Hf in Hrun. inversion Hrun; subst files1 res.
    unfold FileSystem.ReadFile, FileSystem.Open. now rewrite Hf.
Qed.

Lemma ReadFile_repeatable_witness :
  let files1 : Files :=
    <["a.txt" := set_reader None
                   (opened "a.txt"
                      (Sample.regular "a.txt" 420 (Sample.bytes "hello")))]>
      Sample.store in
  FileSystem.ReadFile Sample.store "a.txt"
  = Returned (files1, inl (Sample.bytes "hello"))
  /\ FileSystem.ReadFile files1 "a.txt"
     = Returned (files1, inl (Sample.bytes "hello")).
Proof.
  intros files1.
  assert (Hrun : FileSystem.ReadFile Sample.store "a.txt"
                 = Returned (files1, inl (Sample.bytes "hello")))
    by (vm_compute; reflexivity).
  split; [exact Hrun|].
  exact (ReadFile_repeatable Sample.store files1 "a.txt" _ Hrun).
Defined.

(** ** Handles and the records behind them *)

(** X3.  Reading, seeking and closing never touch what is stored.  A
    [Read], a [Seek] or a [Close] through any handle leaves the key set
    and the persisted fields (name, mode, time, content, tag) of every
    record as they were: only the reader of the record moves. *)
Theorem handle_operations_keep_records (files : Files) (h : handle) :
  (forall n files' res,
      Handle.Read files h n = Returned (files', res) ->
      forall q, persisted <$> files' !! q = persisted <$> files !! q)
  /\ (forall offset whence files' res,
         Handle.Seek files h offset whence = Returned (files', res) ->
         forall q, persisted <$> files' !! q = persisted <$> files !! q)
  /\ (forall q, persisted <$> Handle.Close files h !! q
                = persisted <$> files !! q).
Proof.
  split; [|split].
  - intros n files' res Hrun q. unfold Handle.Read in Hrun.
    destruct (files !! h) as [f|] eqn:Hf; [|discriminate].
    unfold File_.Read in Hrun. destruct (reader f) as [r|]; [|discriminate].
    destruct (Reader.Read r n) as [r' out]. inversion Hrun; subst.
    now apply (persisted_insert_same files h f).
  - intros offset whence files' res Hrun q. unfold Handle.Seek in Hrun.
    destruct (files !! h) as [f|] eqn:Hf; [|discriminate].
    unfold File_.Seek in Hrun. destruct (reader f) as [r|]; [|discriminate].
    destruct (Reader.Seek r offset whence) as [r' out]. inversion Hrun; subst.
    now apply (persisted_insert_same files h f).
  - intros q. unfold Handle.Close.
    destruct (files !! h) as [f|] eqn:Hf; [|reflexivity].
    now apply (persisted_insert_same files h f).
Qed.

Lemma handle_operations_keep_records_witness :
  let f := Sample.regular "a.txt" 420 (Sample.bytes "hello") in
  let files : Files := <["a.txt" := opened "a.txt" f]> Sample.store in
  let files' : Files :=
    <["a.txt" := set_reader
                   (Some {| Reader.s := Sample.bytes "hello"; Reader.i := 3 |})
                   (opened "a.txt" f)]> files in
  Handle.Read files "a.txt" 3 = Returned (files', (Sample.bytes "hel", None))
  /\ forall q, persisted <$> files' !! q = persisted <$> files !! q.
Proof.
  intros f files files'.
  assert (Hrun : Handle.Read files "a.txt" 3
                 = Returned (files', (Sample.bytes "hel", None)))
    by (vm_compute; reflexivity).
  split; [exact Hrun|].
  destruct (handle_operations_keep_records files "a.txt") as (Hread & _ & _).
  exact (Hread 3 files' _ Hrun).
Defined.

(** ** Seeking *)

(** The reading loop from any index: the bytes from the index on, none
    when the index is at or past the end. *)
Lemma read_to_EOF_from (chunk : nat) (sl : list byte) :
  0 < chunk ->
  forall (fuel k : nat) (f : File) (acc : list byte),
    reader f = Some {| Reader.s := sl; Reader.i := Z.of_nat k |} ->
    List.length sl - k < fuel ->
    exists f',
      read_to_EOF fuel chunk f acc = Returned (f', (acc ++ drop k sl)%list)
      /\ persisted f' = persisted f.
Proof.
  intros Hchunk fuel k f acc Hr Hfuel.
  destruct (le_lt_dec k (List.length sl)) as [Hle|Hgt].
  - eexists. split.
    + now apply (read_to_EOF_all chunk sl Hchunk fuel k f acc).
    + reflexivity.
  - destruct fuel as [|fuel]; [lia|]. simpl.
    unfold File_.Read. rewrite Hr. unfold Reader.Read, Reader.len.
    cbn [Reader.s Reader.i].
    destruct (Z.leb_spec (Z.of_nat (List.length sl)) (Z.of_nat k)); [|lia].
    eexists. split.
    + rewrite drop_ge by lia. reflexivity.
    + reflexivity.
Qed.

Lemma ReadAll_from (f : File) (sl : list byte) (k : nat) :
  reader f = Some {| Reader.s := sl; Reader.i := Z.of_nat k |} ->
  exists f', ReadAll f = Returned (f', drop k sl)
             /\ persisted f' = persisted f.
Proof.
  intros Hr. unfold ReadAll.
  destruct (read_to_EOF_from 512 sl ltac:(lia) (read_fuel f) k f [] Hr)
    as (f' & Hrun & Hp).
  - unfold read_fuel. rewrite Hr. cbn [Reader.s]. lia.
  - exists f'. split; assumption.
Qed.

(** X4.  The size probe of a file server.  After [Open], [Seek(0,
    io.SeekEnd)] returns [Size()], the length of the content, a following
    [Seek(0, io.SeekStart)] returns 0, and reading to the end then still
    yields the whole content.  The length of the content fits an
    [int64]. *)
Theorem Seek_end_reports_Size (files files1 : Files) (nm : string)
        (h : handle) (f : File) :
  FileSystem.Open files nm = (files1, inl h) ->
  files !! h = Some f ->
  (Z.of_nat (List.length (Content f)) < 2 ^ 63)%Z ->
  exists files2 files3 f3 f4,
    Handle.Seek files1 h 0 Reader.SeekEnd
    = Returned (files2, inl (File_.Size f))
    /\ Handle.Seek files2 h 0 Reader.SeekStart = Returned (files3, inl 0%Z)
    /\ files3 !! h = Some f3
    /\ ReadAll f3 = Returned (f4, Content f).
Proof.
  intros Hopen Hf Hlen.
  apply Open_inv in Hopen as (_ & f0 & Hf0 & ->).
  rewrite Hf in Hf0. inversion Hf0; subst f0. clear Hf0.
  assert (Hend : Handle.Seek (<[h := opened h f]> files) h 0 Reader.SeekEnd
                 = Returned
                     (<[h := set_reader
                               (Some {| Reader.s := Content f;
                                        Reader.i := File_.Size f |})
                               (opened h f)]> (<[h := opened h f]> files),
                      inl (File_.Size f))).
  { unfold Handle.Seek. rewrite lookup_insert_eq.
    unfold File_.Seek, opened. cbn [reader].
    unfold Reader.Seek, Reader.len, Reader.NewReader.
    cbn [Reader.s Reader.i]. simpl Z.eqb. cbn match.
    rewrite Z.add_0_r, wrap64_small by lia.
    unfold File_.Size. cbn [Content].
    destruct (Z.ltb_spec (Z.of_nat (List.length (Content f))) 0); [lia|].
    reflexivity. }
  eexists _, _, _, _. split; [exact Hend|]. split; [|split].
  - unfold Handle.Seek. rewrite lookup_insert_eq.
    unfold File_.Seek, set_reader. cbn [reader].
    unfold Reader.Seek. cbn [Reader.s Reader.i]. simpl. reflexivity.
  - apply lookup_insert_eq.
  - unfold ReadAll.
    apply (read_to_EOF_all 512 (Content f)) with (k := 0).
    + lia.
    + reflexivity.
    + lia.
    + unfold read_fuel. cbn [reader set_reader Reader.s]. lia.
Qed.

Lemma Seek_end_reports_Size_witness :
  let files1 := fst (FileSystem.Open Sample.store "a.txt") in
  exists files2,
    Handle.Seek files1 "a.txt" 0 Reader.SeekEnd = Returned (files2, inl 5%Z).
Proof.
  intros files1.
  destruct (Seek_end_reports_Size Sample.store files1 "a.txt" "a.txt"
              (Sample.regular "a.txt" 420 (Sample.bytes "hello")))
    as (files2 & _ & _ & _ & Hend & _).
  - vm_compute. reflexivity.
  - vm_compute. reflexivity.
  - vm_compute. reflexivity.
  - exists files2. exact Hend.
Defined.

(** X5.  Seeking from the start.  On an open record, [Seek(k,
    io.SeekStart)] with [k >= 0] returns [k], and reading to the end then
    yields the content from index [k] on (nothing when [k] is at or past
    the end); with [k < 0] it returns the error of a negative position,
    and a [whence] other than 0, 1, 2 returns the error of an invalid
    whence; in both error cases the record, its reading position
    included, is as before. *)
Theorem Seek_start_then_read (f : File) (r : Reader.t) (k : Z) :
  reader f = Some r ->
  ((0 <= k)%Z ->
   exists f' f'',
     File_.Seek f k Reader.SeekStart = Returned (f', inl k)
     /\ ReadAll f' = Returned (f'', drop (Z.to_nat k) (Reader.s r)))
  /\ ((k < 0)%Z ->
      File_.Seek f k Reader.SeekStart
      = Returned (f, inr (SeekError "bytes.Reader.Seek: negative position")))
  /\ (forall whence,
         (whence < 0 \/ 2 < whence)%Z ->
         File_.Seek f k whence
         = Returned (f, inr (SeekError "bytes.Reader.Seek: invalid whence"))).
Proof.
  intros Hr. split; [|split].
  - intros Hk. unfold File_.Seek. rewrite Hr. unfold Reader.Seek.
    simpl Z.eqb. cbn match.
    destruct (Z.ltb_spec k 0); [lia|].
    destruct (ReadAll_from
                (set_reader (Some {| Reader.s := Reader.s r; Reader.i := k |}) f)
                (Reader.s r) (Z.to_nat k)) as (f'' & Hrun & _).
    { cbn [reader set_reader]. now rewrite Z2Nat.id. }
    eexists _, f''. split; [reflexivity | exact Hrun].
  - intros Hk. unfold File_.Seek. rewrite Hr. unfold Reader.Seek.
    simpl Z.eqb. cbn match.
    destruct (Z.ltb_spec k 0); [|lia].
    rewrite <- Hr. now rewrite set_reader_same.
  - intros whence Hw. unfold File_.Seek. rewrite Hr. unfold Reader.Seek.
    unfold Reader.SeekStart, Reader.SeekCurrent, Reader.SeekEnd.
    destruct (Z.eqb_spec whence 0); [lia|].
    destruct (Z.eqb_spec whence 1); [lia|].
    destruct (Z.eqb_spec whence 2); [lia|].
    rewrite <- Hr. now rewrite set_reader_same.
Qed.

Lemma Seek_start_then_read_witness :
  let f := opened "a.txt" (Sample.regular "a.txt" 420 (Sample.bytes "hello")) in
  (exists f' f'',
      File_.Seek f 3 Reader.SeekStart = Returned (f', inl 3%Z)
      /\ ReadAll f' = Returned (f'', Sample.bytes "lo"))
  /\ File_.Seek f (-1) Reader.SeekStart
     = Returned (f, inr (SeekError "bytes.Reader.Seek: negative position"))
  /\ File_.Seek f 0 7
     = Returned (f, inr (SeekError "bytes.Reader.Seek: invalid whence")).
Proof.
  intros f.
  destruct (Seek_start_then_read f (Reader.NewReader (Sample.bytes "hello")) 3)
    as (Hok & _ & _); [reflexivity|].
  destruct (Seek_start_then_read f (Reader.NewReader (Sample.bytes "hello"))
              (-1)) as (_ & Hneg & _); [reflexivity|].
  destruct (Seek_start_then_read f (Reader.NewReader (Sample.bytes "hello")) 0)
    as (_ & _ & Hwhence); [reflexivity|].
  split; [|split].
  - apply Hok. lia.
  - apply Hneg. lia.
  - apply Hwhence. lia.
Defined.

(** ** Listing the directory of a file *)

(** X6.  [ReadDir] on the path of a regular file lists the directory that
    holds the file.  When [sort.Slice] meets its contract and the name is
    the key of a record that is no directory, [ReadDir] returns a list
    that holds exactly the [FileInfo]s of the records whose [filepath.Dir]
    equals that of the key, the one of the named file itself among them;
    it leaves the record closed and the persisted fields of every record
    as they were.  On a name that is no key it returns the NotFound error
    and the store is as before. *)
Theorem ReadDir_of_regular_file (E : Externals) (Hsort : sort_contract E)
        (ord : list string) (files : Files) (nm : string) :
  range_order files ord ->
  (forall f,
      files !! GoStrings.TrimPrefix nm "./" = Some f ->
      FileMode.IsDir (Mode f) = false ->
      exists files' list,
        FileSystem.ReadDir ord files nm = (files', inl list)
        /\ File_.Stat f ∈ list
        /\ (forall info,
               info ∈ list <->
               exists p g, files !! p = Some g
                           /\ filepath.Dir p
                              = filepath.Dir (GoStrings.TrimPrefix nm "./")
                           /\ info = File_.Stat g)
        /\ reader <$> files' !! GoStrings.TrimPrefix nm "./" = Some None
        /\ forall q, persisted <$> files' !! q = persisted <$> files !! q)
  /\ (files !! GoStrings.TrimPrefix nm "./" = None ->
      FileSystem.ReadDir ord files nm
      = (files, inr (NotFound (GoStrings.TrimPrefix nm "./")))).
Proof.
  intros Hord. split.
  - intros f Hf Hreg.
    destruct (ReadDir_one_call E Hsort ord files files nm f)
      as (list & Hrun & _ & Hperm); auto.
    unfold listed_dir in Hperm. rewrite Hreg in Hperm.
    assert (Hmem : forall info,
               info ∈ list <->
               exists p g, files !! p = Some g
                           /\ filepath.Dir p
                              = filepath.Dir (GoStrings.TrimPrefix nm "./")
                           /\ info = File_.Stat g).
    { intros info. rewrite Hperm. apply elem_of_dir_infos. }
    eexists _, list. split; [exact Hrun|]. split; [|split; [exact Hmem|split]].
    + apply Hmem. eauto.
    + now rewrite lookup_insert_eq.
    + now apply (persisted_insert_same files _ f).
  - intros Hnone. unfold FileSystem.ReadDir, FileSystem.Open.
    now rewrite Hnone.
Qed.

Lemma ReadDir_of_regular_file_witness :
  (exists files' list,
      @FileSystem.ReadDir Sample.externals ["dir"; "a.txt"; "dir/b.txt"]
        Sample.store "dir/b.txt" = (files', inl list)
      /\ File_.Stat (Sample.regular "b.txt" 384 (Sample.bytes "world")) ∈ list)
  /\ @FileSystem.ReadDir Sample.externals ["dir"; "a.txt"; "dir/b.txt"]
       Sample.store "nowhere"
     = (Sample.store, inr (NotFound "nowhere")).
Proof.
  assert (Hord : range_order Sample.store ["dir"; "a.txt"; "dir/b.txt"])
    by range_order_by_compute.
  destruct (ReadDir_of_regular_file Sample.externals Sample_sort_contract
              ["dir"; "a.txt"; "dir/b.txt"] Sample.store "dir/b.txt" Hord)
    as [Hfound _].
  destruct (ReadDir_of_regular_file Sample.externals Sample_sort_contract
              ["dir"; "a.txt"; "dir/b.txt"] Sample.store "nowhere" Hord)
    as [_ Hmissing].
  split.
  - destruct (Hfound (Sample.regular "b.txt" 384 (Sample.bytes "world")))
      as (files' & list & Hrun & Hself & _).
    + vm_compute. reflexivity.
    + vm_compute. reflexivity.
    + exists files', list. split; assumption.
  - apply Hmissing. vm_compute. reflexivity.
Defined.

(** ** Copying to the host: refusals and existing files *)

(** X7.  A destination the host refuses.  When the source is a record of
    the store and the host does not let the destination be opened for
    writing, [CopyFile] returns the error of the host, the host is as
    before, the source record is left closed and no persisted field of
    the store has changed. *)
Theorem CopyFile_destination_refused (files : Files) (host : Host)
        (src dst : string) (f : File) :
  files !! GoStrings.TrimPrefix src "./" = Some f ->
  dst ∈ hdenied host ->
  exists files',
    FileSystem.CopyFile files host src dst
    = Returned (files', host, Some (HostError "open" dst))
    /\ reader <$> files' !! GoStrings.TrimPrefix src "./" = Some None
    /\ forall q, persisted <$> files' !! q = persisted <$> files !! q.
Proof.
  intros Hf Hdenied. unfold FileSystem.CopyFile.
  rewrite (Open_found files src f Hf).
  set (h := GoStrings.TrimPrefix src "./").
  rewrite lookup_insert_eq. unfold os.OpenFile.
  rewrite decide_True by assumption.
  unfold Handle.Close. rewrite lookup_insert_eq, insert_insert_eq.
  eexists. split; [reflexivity|]. split.
  - now rewrite lookup_insert_eq.
  - now apply (persisted_insert_same files h f).
Qed.

Lemma CopyFile_destination_refused_witness :
  let host := {| hfiles := ∅; hdenied := {["/proc/x"]}; humask := 18;
                 hquota := ∅ |} in
  exists files',
    FileSystem.CopyFile Sample.store host "a.txt" "/proc/x"
    = Returned (files', host, Some (HostError "open" "/proc/x")).
Proof.
  intros host.
  destruct (CopyFile_destination_refused Sample.store host "a.txt" "/proc/x"
              (Sample.regular "a.txt" 420 (Sample.bytes "hello")))
    as (files' & Hrun & _).
  - vm_compute. reflexivity.
  - subst host. cbn [hdenied]. now apply elem_of_singleton_2.
  - exists files'. exact Hrun.
Defined.

(** X8.  Copying onto an existing host file.  When the destination
    exists already, can be opened and the host takes all the bytes,
    [CopyFile] returns no error and the destination afterwards holds
    exactly the bytes of the record, none of its former bytes, while its
    permission bits stay those it had: the bits of the record are handed
    to the host for a creation only. *)
Theorem CopyFile_onto_existing (files : Files) (host : Host)
        (src dst : string) (f : File) (old : HostFile) :
  files !! GoStrings.TrimPrefix src "./" = Some f ->
  dst ∉ hdenied host ->
  hfiles host !! dst = Some old ->
  (forall limit, hquota host !! dst = Some limit ->
                 (List.length (Content f) <= limit)%nat) ->
  exists files' host',
    FileSystem.CopyFile files host src dst = Returned (files', host', None)
    /\ hfiles host' !! dst
       = Some {| hperm := hperm old; hdata := Content f |}.
Proof.
  intros Hf Hok Hold Hroom.
  rewrite (CopyFile_found files host src dst f Hf Hok), Hold.
  assert (Hpart : match hquota host !! dst with
                  | Some limit => take limit (Content f)
                  | None => Content f
                  end = Content f).
  { destruct (hquota host !! dst) as [limit|] eqn:Hq; [|reflexivity].
    apply take_ge. now apply Hroom. }
  rewrite Hpart, Nat.ltb_irrefl.
  eexists _, _. split; [reflexivity|].
  unfold set_hfiles. cbn [hfiles]. apply lookup_insert_eq.
Qed.

Lemma CopyFile_onto_existing_witness :
  let host :=
    {| hfiles := {["/tmp/out" := {| hperm := 256; hdata := Sample.bytes "old bytes" |}]};
       hdenied := ∅; humask := 18; hquota := {["/tmp/out" := 5%nat]} |} in
  exists files' host',
    FileSystem.CopyFile Sample.store host "a.txt" "/tmp/out"
    = Returned (files', host', None)
    /\ hfiles host' !! "/tmp/out"
       = Some {| hperm := 256; hdata := Sample.bytes "hello" |}.
Proof.
  intros host.
  apply (CopyFile_onto_existing Sample.store host "a.txt" "/tmp/out"
           (Sample.regular "a.txt" 420 (Sample.bytes "hello"))
           {| hperm := 256; hdata := Sample.bytes "old bytes" |}).
  - vm_compute. reflexivity.
  - apply not_elem_of_empty.
  - vm_compute. reflexivity.
  - intros limit Hq.
    assert (Hlimit : limit = 5%nat) by (vm_compute in Hq; congruence).
    subst limit. vm_compute. lia.
Defined.

(** X22.  A write cut short.  When the source is a record of the store,
    the destination can be opened, and the host lets the destination hold
    fewer bytes than the record has, [CopyFile] returns the error of the
    write: the destination is left with the bytes the host took, a
    leading part of the record's [Content], and the source record is left
    closed with its persisted fields as they were. *)
Theorem CopyFile_write_cut_short (files : Files) (host : Host)
        (src dst : string) (f : File) (limit : nat) :
  files !! GoStrings.TrimPrefix src "./" = Some f ->
  dst ∉ hdenied host ->
  hquota host !! dst = Some limit ->
  (limit < List.length (Content f))%nat ->
  exists files' host' hf,
    FileSystem.CopyFile files host src dst
    = Returned (files', host', Some (HostError "write" dst))
    /\ hfiles host' !! dst = Some hf
    /\ hdata hf = take limit (Content f)
    /\ reader <$> files' !! GoStrings.TrimPrefix src "./" = Some None
    /\ forall q, persisted <$> files' !! q = persisted <$> files !! q.
Proof.
  intros Hf Hok Hq Hlt.
  rewrite (CopyFile_found files host src dst f Hf Hok), Hq.
  assert (Hcut : (List.length (take limit (Content f))
                  <? List.length (Content f))%nat = true).
  { apply Nat.ltb_lt. rewrite length_take. lia. }
  rewrite Hcut. eexists _, _, _. split; [reflexivity|].
  unfold set_hfiles. cbn [hfiles].
  split; [apply lookup_insert_eq|]. split; [reflexivity|]. split.
  - now rewrite lookup_insert_eq.
  - now apply (persisted_insert_same files _ f).
Qed.

Lemma CopyFile_write_cut_short_witness :
  let host := {| hfiles := ∅; hdenied := ∅; humask := 18;
                 hquota := {["/mnt/usb/a.txt" := 2%nat]} |} in
  exists files' host' hf,
    FileSystem.CopyFile Sample.store host "a.txt" "/mnt/usb/a.txt"
    = Returned (files', host', Some (HostError "write" "/mnt/usb/a.txt"))
    /\ hfiles host' !! "/mnt/usb/a.txt" = Some hf
    /\ hdata hf = Sample.bytes "he".
Proof.
  intros host.
  destruct (CopyFile_write_cut_short Sample.store host "a.txt" "/mnt/usb/a.txt"
              (Sample.regular "a.txt" 420 (Sample.bytes "hello")) 2)
    as (files' & host' & hf & Hrun & Hlook & Hdata & _).
  - vm_compute. reflexivity.
  - apply not_elem_of_empty.
  - vm_compute. reflexivity.
  - vm_compute. lia.
  - exists files', host', hf. repeat split; assumption.
Defined.

(** ** The encoded form *)

Lemma EncodeByte_in_hextable (v : byte) :
  Forall (fun b => In b hex.hextable) (hex.EncodeByte v).
Proof.
  assert (Hnth : forall n, (n < 16)%nat -> In (nth n hex.hextable x00) hex.hextable).
  { intros n Hn. apply nth_In. exact Hn. }
  pose proof (Byte.to_N_bounded v) as Hv.
  unfold hex.EncodeByte.
  constructor; [apply Hnth | constructor; [apply Hnth | constructor]].
  - rewrite N.shiftr_div_pow2.
    assert (Byte.to_N v / 2 ^ 4 < 16)%N by (apply N.Div0.div_lt_upper_bound; lia).
    lia.
  - change 15%N with (N.ones 4). rewrite N.land_ones.
    assert (Byte.to_N v mod 2 ^ 4 < 16)%N by (apply N.mod_lt; lia).
    lia.
Qed.

Lemma Encode_in_hextable (src : list byte) :
  Forall (fun b => In b hex.hextable) (hex.Encode src).
Proof.
  unfold hex.Encode. induction src as [|v src IH]; [constructor|].
  change (Forall (fun b => In b hex.hextable)
            (hex.EncodeByte v ++ concat (map hex.EncodeByte src))).
  apply Forall_app. split; [apply EncodeByte_in_hextable | exact IH].
Qed.

(** X9.  [Encode] writes printable hexadecimal text.  For every regular
    file of the store whose sniffed type is outside the exclusion list,
    after [Encode] the record carries the tag of the algorithm, its
    content consists of the digits [0-9a-f] only and is twice as long as
    the bytes encoded (the content itself for None, the gzip stream for
    Gzip), and its name, mode and time are as before. *)
Theorem Encode_writes_hex_text (E : Externals) (files : Files)
        (algo : Compression) (p : string) (f : File) :
  files !! p = Some f ->
  FileMode.IsDir (Mode f) = false ->
  mimetype_Detect (Content f) ∉ compressExcl ->
  exists f',
    FileSystem.Encode algo files !! p = Some f'
    /\ compression f' = algo
    /\ Forall (fun b => In b hex.hextable) (Content f')
    /\ List.length (Content f')
       = 2 * List.length (match algo with
                          | Gzip => gzip_Write (Content f)
                          | None_ => Content f
                          end)
    /\ Filename f' = Filename f /\ Mode f' = Mode f /\ ModTime f' = ModTime f.
Proof.
  intros Hf Hreg Hout. unfold FileSystem.Encode.
  rewrite lookup_fmap, Hf. simpl.
  rewrite encode_file_compressible by assumption.
  eexists. split; [reflexivity|]. split; [reflexivity|].
  cbn [Content set_Content]. unfold hex.EncodeToString.
  rewrite list_byte_of_string_of_list_byte.
  split; [apply Encode_in_hextable|]. split; [apply length_Encode|].
  repeat split.
Qed.

Lemma Encode_writes_hex_text_witness :
  exists f',
    @FileSystem.Encode Sample.externals None_ Sample.store !! "a.txt" = Some f'
    /\ compression f' = None_
    /\ Forall (fun b => In b hex.hextable) (Content f')
    /\ List.length (Content f') = 10.
Proof.
  destruct (Encode_writes_hex_text Sample.externals Sample.store None_ "a.txt"
              (Sample.regular "a.txt" 420 (Sample.bytes "hello")))
    as (f' & Hf' & Htag & Hhex & Hlen & _).
  - vm_compute. reflexivity.
  - vm_compute. reflexivity.
  - vm_compute. intros Hin.
    repeat (apply elem_of_cons in Hin as [Hin|Hin]; [discriminate|]).
    now apply elem_of_nil in Hin.
  - exists f'. repeat split; assumption.
Defined.

Lemma decode_encode_file_None (E : Externals) (f : File) :
  (FileMode.IsDir (Mode f) = false ->
   mimetype_Detect (Content f) ∉ compressExcl) ->
  (FileMode.IsDir (Mode f) = true ->
   Content f = [] /\ compression f = None_) ->
  FileSystem.decode_file (FileSystem.encode_file None_ f) = inl (Content f)
  /\ compression (FileSystem.encode_file None_ f) = None_.
Proof.
  intros Hreg Hdir.
  destruct (FileMode.IsDir (Mode f)) eqn:Hmode.
  - rewrite encode_file_directory by assumption.
    destruct Hdir as [Hc Ht]; [reflexivity|].
    unfold FileSystem.decode_file. now rewrite Hc, Ht.
  - rewrite encode_file_compressible by auto.
    unfold FileSystem.decode_file. simpl.
    now rewrite Decode_EncodeToString.
Qed.

(** X10.  The round trip without compression.  [Encode(None)] followed
    by [Decompress] needs nothing of gzip: for every store whose regular
    files are all sniffed outside the exclusion list and whose directories
    have empty content and tag None, [Decompress] returns no error, every
    record holds the bytes it held before the encoding, and every record
    is tagged None. *)
Theorem Encode_None_Decompress_roundtrip (E : Externals) (files : Files)
        (ord : list string) :
  range_order files ord ->
  (forall p f, files !! p = Some f -> FileMode.IsDir (Mode f) = false ->
               mimetype_Detect (Content f) ∉ compressExcl) ->
  (forall p f, files !! p = Some f -> FileMode.IsDir (Mode f) = true ->
               Content f = [] /\ compression f = None_) ->
  exists files',
    FileSystem.Decompress ord (FileSystem.Encode None_ files) = (files', None)
    /\ (forall p, Content <$> files' !! p = Content <$> files !! p)
    /\ (forall p f', files' !! p = Some f' -> compression f' = None_).
Proof.
  intros [Hnd Hkeys] Hreg Hdir.
  destruct (Decompress_all_decodable ord (FileSystem.Encode None_ files) Hnd)
    as (files' & Hrun & Hlook).
  { intros p fc _ Hfc. unfold FileSystem.Encode in Hfc.
    rewrite lookup_fmap in Hfc.
    destruct (files !! p) as [f|] eqn:Hf; [|discriminate].
    inversion Hfc; subst fc. exists (Content f).
    apply decode_encode_file_None; eauto. }
  exists files'. split; [assumption|].
  assert (Hrec : forall p f, files !! p = Some f ->
             files' !! p
             = Some (set_Content (Content f) (FileSystem.encode_file None_ f))).
  { intros p f Hf. rewrite Hlook. unfold FileSystem.Encode.
    rewrite lookup_fmap, Hf. rewrite decide_True by (apply Hkeys; eauto).
    simpl. unfold FileSystem.decoded.
    destruct (decode_encode_file_None E f) as [Hd _]; eauto.
    now rewrite Hd. }
  split.
  - intros p. destruct (files !! p) as [f|] eqn:Hf.
    + now rewrite (Hrec p f Hf).
    + rewrite Hlook. unfold FileSystem.Encode. rewrite lookup_fmap, Hf.
      now destruct (decide (p ∈ ord)).
  - intros p f' Hf'. destruct (files !! p) as [f|] eqn:Hf.
    + rewrite (Hrec p f Hf) in Hf'. inversion Hf'; subst f'.
      cbn [compression set_Content].
      destruct (decode_encode_file_None E f) as [_ Ht]; eauto.
    + rewrite Hlook in Hf'. unfold FileSystem.Encode in Hf'.
      rewrite lookup_fmap, Hf in Hf'.
      destruct (decide (p ∈ ord)); discriminate.
Qed.

Lemma Encode_None_Decompress_roundtrip_witness :
  exists files',
    @FileSystem.Decompress Sample.externals ["dir"; "dir/b.txt"; "a.txt"]
      (@FileSystem.Encode Sample.externals None_ Sample.store) = (files', None)
    /\ (forall p, Content <$> files' !! p = Content <$> Sample.store !! p)
    /\ (forall p f', files' !! p = Some f' -> compression f' = None_).
Proof.
  apply (Encode_None_Decompress_roundtrip Sample.externals Sample.store).
  - range_order_by_compute.
  - intros p f Hf _. entries_cases Hf; vm_compute;
      intros Hin; repeat (apply elem_of_cons in Hin as [Hin|Hin];
                          [discriminate|]);
      now apply elem_of_nil in Hin.
  - intros p f Hf. entries_cases Hf; vm_compute; intros; try discriminate.
    split; reflexivity.
Defined.

(** ** When [Decompress] fails *)

Lemma Decompress_error_if_undecodable (E : Externals) (ord : list string)
      (files : Files) (p : string) (f : File) (e : error) :
  p ∈ ord -> files !! p = Some f -> FileSystem.decode_file f = inr e ->
  exists files' e', FileSystem.Decompress ord files = (files', Some e').
Proof.
  intros Hin Hf He. revert files Hin Hf.
  induction ord as [|q ord IH]; intros files Hin Hf.
  - now apply elem_of_nil in Hin.
  - simpl. destruct (decide (q = p)) as [->|Hne].
    + rewrite Hf, He. eauto.
    + apply elem_of_cons in Hin as [Hin|Hin]; [congruence|].
      destruct (files !! q) as [g|] eqn:Hg; [|now apply IH].
      destruct (FileSystem.decode_file g) as [dst|e0]; [|eauto].
      apply IH; [assumption|]. now rewrite lookup_insert_ne.
Qed.

Lemma Decompress_error_origin (E : Externals) (ord : list string)
      (files files' : Files) (err : error) :
  NoDup ord ->
  FileSystem.Decompress ord files = (files', Some err) ->
  exists p f, p ∈ ord /\ files !! p = Some f
              /\ FileSystem.decode_file f = inr err.
Proof.
  revert files. induction ord as [|q ord IH]; intros files Hnd Hrun.
  - discriminate.
  - apply NoDup_cons in Hnd as [Hq Hnd]. simpl in Hrun.
    destruct (files !! q) as [g|] eqn:Hg.
    + destruct (FileSystem.decode_file g) as [dst|e0] eqn:Hd.
      * destruct (IH _ Hnd Hrun) as (p & f & Hp & Hf & He).
        exists p, f. split; [now right|]. split; [|assumption].
        rewrite lookup_insert_ne in Hf; [assumption|].
        intros ->. contradiction.
      * inversion Hrun; subst. exists q, g. split; [left|]. split; assumption.
    + destruct (IH _ Hnd Hrun) as (p & f & Hp & Hf & He).
      exists p, f. split; [now right|]. split; assumption.
Qed.

(** X11.  [Decompress] succeeds exactly when every record decodes.
    Visiting the keys of the store in any order, [Decompress] returns no
    error if and only if the content of every record is hexadecimal text
    that decodes (and, for a record tagged Gzip, gunzips); and an error
    it returns is the decoding error of one of the records, never
    anything else. *)
Theorem Decompress_succeeds_iff (E : Externals) (ord : list string)
        (files : Files) :
  range_order files ord ->
  (snd (FileSystem.Decompress ord files) = None <->
   forall p f, files !! p = Some f ->
               exists dst, FileSystem.decode_file f = inl dst)
  /\ (forall err,
         snd (FileSystem.Decompress ord files) = Some err ->
         exists p f, files !! p = Some f
                     /\ FileSystem.decode_file f = inr err).
Proof.
  intros [Hnd Hkeys]. split; [split|].
  - intros Hnone p f Hf.
    destruct (FileSystem.decode_file f) as [dst|e] eqn:Hd; [eauto|].
    destruct (Decompress_error_if_undecodable E ord files p f e)
      as (files' & e' & Hrun); [apply Hkeys; eauto | assumption | assumption |].
    rewrite Hrun in Hnone. discriminate.
  - intros Hall.
    destruct (Decompress_all_decodable ord files Hnd) as (files' & Hrun & _).
    { intros p f _ Hf. eauto. }
    now rewrite Hrun.
  - intros err Herr.
    destruct (FileSystem.Decompress ord files) as [files' res] eqn:Hrun.
    simpl in Herr. subst res.
    destruct (Decompress_error_origin E ord files files' err Hnd Hrun)
      as (p & f & _ & Hf & He).
    eauto.
Qed.

Lemma Decompress_succeeds_iff_witness :
  snd (@FileSystem.Decompress Sample.externals ["a.txt"; "dir"; "dir/b.txt"]
         Sample.store) <> None
  /\ exists p f, Sample.store !! p = Some f
                 /\ @FileSystem.decode_file Sample.externals f
                    = inr (InvalidByteError "h").
Proof.
  destruct (Decompress_succeeds_iff Sample.externals
              ["a.txt"; "dir"; "dir/b.txt"] Sample.store) as [Hiff Herr].
  - range_order_by_compute.
  - split.
    + intros Hnone. destruct Hiff as [Hall _]. specialize (Hall Hnone).
      destruct (Hall "a.txt" (Sample.regular "a.txt" 420 (Sample.bytes "hello")))
        as [dst Hdst]; [vm_compute; reflexivity|].
      vm_compute in Hdst. discriminate.
    + apply Herr. vm_compute. reflexivity.
Defined.

(** ** The bundle key, in general *)

Lemma string_append_assoc (a b c : string) : (a ++ b) ++ c = a ++ (b ++ c).
Proof.
  induction a as [|x a IH]; [reflexivity|].
  change (String x ((a ++ b) ++ c) = String x (a ++ (b ++ c))).
  now rewrite IH.
Qed.

Lemma arch_loop_nonempty (goFile : string) (l : list string) (t : string) :
  fold_left
    (fun tag arch =>
       if GoStrings.HasSuffix goFile (arch ++ ".go") then "_" ++ arch else tag)
    l ("_" ++ t) <> "".
Proof.
  revert t. induction l as [|y l IH]; intros t; [discriminate|].
  cbn [fold_left].
  destruct (GoStrings.HasSuffix goFile (y ++ ".go")).
  - apply (IH y).
  - apply (IH t).
Qed.

(** A tag as the two loops of [buildFS] build it: empty, or an underscore
    and a text [t] such that the file name ends with [t.go]. *)
Lemma arch_loop_tag (goFile : string) (l : list string) (tag0 : string) :
  (tag0 = "" \/ exists a, tag0 = "_" ++ a
                          /\ GoStrings.HasSuffix goFile (a ++ ".go") = true) ->
  let r := fold_left
             (fun tag arch =>
                if GoStrings.HasSuffix goFile (arch ++ ".go") then "_" ++ arch
                else tag) l tag0 in
  (Forall (fun a => GoStrings.HasSuffix goFile (a ++ ".go") = false) l ->
   r = tag0)
  /\ (Exists (fun a => GoStrings.HasSuffix goFile (a ++ ".go") = true) l ->
      r <> "")
  /\ (r = "" \/ exists a, r = "_" ++ a
                          /\ GoStrings.HasSuffix goFile (a ++ ".go") = true).
Proof.
  revert tag0. induction l as [|x l IH]; intros tag0 H0; cbv zeta.
  - simpl. split; [reflexivity|]. split; [|assumption].
    intros Hex. inversion Hex.
  - cbn [fold_left]. destruct (GoStrings.HasSuffix goFile (x ++ ".go")) eqn:Hx.
    + destruct (IH ("_" ++ x)) as (Hnone & Hsome & Hinv); [right; eauto|].
      split; [|split; [|exact Hinv]].
      * intros Hall. apply Forall_cons in Hall as [Hx' _]. congruence.
      * intros _. apply arch_loop_nonempty.
    + destruct (IH tag0 H0) as (Hnone & Hsome & Hinv).
      split; [|split; [|exact Hinv]].
      * intros Hall. apply Forall_cons in Hall as [_ Hall]. auto.
      * intros Hex. apply Exists_cons in Hex as [Hx'|Hex]; [congruence|].
        auto.
Qed.

Lemma os_loop_nonempty (goFile : string) (l : list string) (t : string) :
  fold_left
    (fun tag sys =>
       if GoStrings.HasSuffix goFile (sys ++ tag ++ ".go")
       then "_" ++ sys ++ tag else tag)
    l ("_" ++ t) <> "".
Proof.
  revert t. induction l as [|y l IH]; intros t; [discriminate|].
  cbn [fold_left].
  destruct (GoStrings.HasSuffix goFile (y ++ ("_" ++ t) ++ ".go")).
  - apply (IH (y ++ "_" ++ t)).
  - apply (IH t).
Qed.

Lemma os_loop_tag (goFile : string) (l : list string) (tag0 : string) :
  (tag0 = "" \/ exists a, tag0 = "_" ++ a
                          /\ GoStrings.HasSuffix goFile (a ++ ".go") = true) ->
  let r := fold_left
             (fun tag sys =>
                if GoStrings.HasSuffix goFile (sys ++ tag ++ ".go")
                then "_" ++ sys ++ tag else tag) l tag0 in
  (tag0 = "" ->
   Forall (fun a => GoStrings.HasSuffix goFile (a ++ ".go") = false) l ->
   r = "")
  /\ (tag0 <> "" -> r <> "")
  /\ (Exists (fun a => GoStrings.HasSuffix goFile (a ++ ".go") = true) l ->
      r <> "")
  /\ (r = "" \/ exists a, r = "_" ++ a
                          /\ GoStrings.HasSuffix goFile (a ++ ".go") = true).
Proof.
  revert tag0. induction l as [|x l IH]; intros tag0 H0; cbv zeta.
  - simpl. split; [auto|]. split; [auto|]. split; [|assumption].
    intros Hex. inversion Hex.
  - cbn [fold_left].
    destruct (GoStrings.HasSuffix goFile (x ++ tag0 ++ ".go")) eqn:Hx.
    + destruct (IH ("_" ++ x ++ tag0)) as (_ & _ & _ & Hinv).
      { right. exists (x ++ tag0). split; [reflexivity|].
        now rewrite string_append_assoc. }
      split; [|split; [|split; [|exact Hinv]]].
      * intros -> Hall. apply Forall_cons in Hall as [Hx' _].
        change (x ++ "" ++ ".go") with (x ++ ".go") in Hx. congruence.
      * intros _. apply (os_loop_nonempty goFile l (x ++ tag0)).
      * intros _. apply (os_loop_nonempty goFile l (x ++ tag0)).
    + destruct (IH tag0 H0) as (Hnone & Hkeep & Hsome & Hinv).
      split; [|split; [|split; [|exact Hinv]]].
      * intros Ht Hall. apply Forall_cons in Hall as [_ Hall]. auto.
      * exact Hkeep.
      * intros Hex. apply Exists_cons in Hex as [Hx'|Hex]; [|auto].
        destruct (string_dec tag0 "") as [->|Hne]; [|auto].
        change (x ++ "" ++ ".go") with (x ++ ".go") in Hx. congruence.
Qed.

Lemma buildTag_unfold (goFile : string) :
  exists tag2,
    (bincludegen.buildTag goFile
     = if (String.length tag2 =? 0)%nat then "default" else tag2)
    /\ ((Forall (fun a => GoStrings.HasSuffix goFile (a ++ ".go") = false)
                bincludegen.archs
         /\ Forall (fun a => GoStrings.HasSuffix goFile (a ++ ".go") = false)
                   bincludegen.operatingSystems) <-> tag2 = "")
    /\ (tag2 = "" \/ exists a, tag2 = "_" ++ a
                               /\ GoStrings.HasSuffix goFile (a ++ ".go")
                                  = true).
Proof.
  unfold bincludegen.buildTag.
  set (tag1 := fold_left _ bincludegen.archs "").
  set (tag2 := fold_left _ bincludegen.operatingSystems tag1).
  exists tag2. split; [reflexivity|].
  destruct (arch_loop_tag goFile bincludegen.archs "" (or_introl eq_refl))
    as (Ha_none & Ha_some & Ha_inv). fold tag1 in Ha_none, Ha_some, Ha_inv.
  destruct (os_loop_tag goFile bincludegen.operatingSystems tag1 Ha_inv)
    as (Ho_none & Ho_keep & Ho_some & Ho_inv).
  fold tag2 in Ho_none, Ho_keep, Ho_some, Ho_inv.
  split; [|exact Ho_inv]. split.
  - intros [Harch Hos]. apply Ho_none; auto.
  - intros Hempty. split.
    + apply Forall_forall. intros a Ha.
      destruct (GoStrings.HasSuffix goFile (a ++ ".go")) eqn:Hs; [|reflexivity].
      exfalso. apply Ho_keep; [|assumption]. apply Ha_some.
      apply Exists_exists. eauto.
    + apply Forall_forall. intros a Ha.
      destruct (GoStrings.HasSuffix goFile (a ++ ".go")) eqn:Hs; [|reflexivity].
      exfalso. apply Ho_some; [|assumption]. apply Exists_exists. eauto.
Qed.

(** X12.  When the bundle key is [default].  For every name of a
    declaring file, the key is [default] exactly when the name ends with
    [<arch>.go] for no entry of [archs] and with [<os>.go] for no entry of
    [operatingSystems] (no underscore is asked for). *)
Theorem buildTag_default_iff (goFile : string) :
  bincludegen.buildTag goFile = "default" <->
  Forall (fun a => GoStrings.HasSuffix goFile (a ++ ".go") = false)
         bincludegen.archs
  /\ Forall (fun s => GoStrings.HasSuffix goFile (s ++ ".go") = false)
            bincludegen.operatingSystems.
Proof.
  destruct (buildTag_unfold goFile) as (tag2 & -> & Hiff & Hinv).
  rewrite Hiff. split.
  - intros Hd. destruct Hinv as [->|(a & -> & _)]; [reflexivity|].
    simpl in Hd. discriminate.
  - now intros ->.
Qed.

(** X13.  What a bundle key says about the file name.  For every name
    of a declaring file, the key is [default], or an underscore followed
    by a text [t] such that the name ends with [t.go]; it is never the
    empty string. *)
Theorem buildTag_names_a_suffix (goFile : string) :
  bincludegen.buildTag goFile <> ""
  /\ (bincludegen.buildTag goFile = "default"
      \/ exists t, bincludegen.buildTag goFile = "_" ++ t
                   /\ GoStrings.HasSuffix goFile (t ++ ".go") = true).
Proof.
  destruct (buildTag_unfold goFile) as (tag2 & -> & _ & Hinv).
  destruct Hinv as [->|(a & -> & Ha)].
  - split; [discriminate | now left].
  - split; [discriminate|]. right. exists a. split; [reflexivity | exact Ha].
Qed.

(** ** The bundles of [buildFS] *)

Lemma walkFn_inv (tag : string) (fss fss' : gmap string Files)
      (e : bincludegen.walk_entry) :
  bincludegen.walkFn tag fss e = inl fss' ->
  bincludegen.werr e = None
  /\ exists f,
      bincludegen.freshly_built f
      /\ fss' = <[tag := <[bincludegen.wpath e := f]> (default ∅ (fss !! tag))]> fss.
Proof.
  unfold bincludegen.walkFn. destruct (bincludegen.werr e); [discriminate|].
  intros Hrun. split; [reflexivity|].
  destruct (FileInfo_.IsDir (bincludegen.winfo e)) eqn:Hdir.
  - inversion Hrun; subst. eexists. split; [|reflexivity].
    repeat split.
  - destruct (bincludegen.wread e) as [content|err]; [|discriminate].
    inversion Hrun; subst. eexists. split; [|reflexivity].
    split; [reflexivity|]. split; [reflexivity|].
    cbn [Mode]. unfold FileInfo_.IsDir in Hdir. intros Hd. congruence.
Qed.

(** An invariant of the bundles that every call of [walkFn] under one of
    the tags in [T] keeps is kept by [buildFS]. *)
Lemma buildFS_from_invariant (Walk : string -> list bincludegen.walk_entry)
      (Inv : gmap string Files -> Prop) (T : string -> Prop) :
  (forall tag fss e fss',
      T tag -> Inv fss -> bincludegen.walkFn tag fss e = inl fss' -> Inv fss') ->
  forall l fss fss',
    (forall file, file ∈ l -> T (bincludegen.buildTag (bincludegen.goFile file))) ->
    Inv fss -> bincludegen.buildFS_from Walk fss l = inl fss' -> Inv fss'.
Proof.
  intros Hstep.
  assert (Hwalk : forall tag es fss fss',
             T tag -> Inv fss -> bincludegen.walk_all tag fss es = inl fss' ->
             Inv fss').
  { intros tag es. induction es as [|e es IH]; intros fss fss' Ht Hinv Hrun.
    - simpl in Hrun. now inversion Hrun; subst.
    - simpl in Hrun.
      destruct (bincludegen.walkFn tag fss e) as [fss1|err] eqn:He;
        [|discriminate].
      apply (IH fss1 fss'); [assumption | | assumption].
      apply (Hstep tag fss e fss1); assumption. }
  induction l as [|file l IH]; intros fss fss' HT Hinv Hrun.
  - simpl in Hrun. now inversion Hrun; subst.
  - simpl in Hrun.
    destruct (bincludegen.walk_all _ fss _) as [fss1|err] eqn:Hw; [|discriminate].
    apply (IH fss1 fss'); [| |assumption].
    + intros g Hg. apply HT. now right.
    + apply (Hwalk (bincludegen.buildTag (bincludegen.goFile file))
                   (Walk (bincludegen.includedPath file)) fss fss1);
        [apply HT; left | assumption | exact Hw].
Qed.

(** X14.  The keys of the bundles.  When [buildFS] succeeds, the bundle
    [default] exists, whether or not a declaring file is keyed to it, and
    every other bundle is keyed by the tag of one of the declaring files
    handed in. *)
Theorem buildFS_bundle_keys (Walk : string -> list bincludegen.walk_entry)
        (includedFiles : list bincludegen.includedFile)
        (bundles : gmap string Files) :
  bincludegen.buildFS Walk includedFiles = inl bundles ->
  is_Some (bundles !! "default")
  /\ forall tag,
      is_Some (bundles !! tag) ->
      tag = "default"
      \/ exists file, file ∈ includedFiles
                      /\ tag = bincludegen.buildTag (bincludegen.goFile file).
Proof.
  intros Hrun. unfold bincludegen.buildFS in Hrun.
  refine (buildFS_from_invariant Walk
            (fun fss =>
               is_Some (fss !! "default")
               /\ forall tag,
                   is_Some (fss !! tag) ->
                   tag = "default"
                   \/ exists file,
                       file ∈ includedFiles
                       /\ tag = bincludegen.buildTag (bincludegen.goFile file))
            (fun tag =>
               exists file,
                 file ∈ includedFiles
                 /\ tag = bincludegen.buildTag (bincludegen.goFile file))
            _ includedFiles {["default" := ∅]} bundles _ _ Hrun);
    [| eauto |].
  - intros tag fss e fss' Ht [Hdef Hkeys] He.
    apply walkFn_inv in He as (_ & f & _ & ->). split.
    + destruct (decide (tag = "default")) as [->|Hne].
      * rewrite lookup_insert_eq. eauto.
      * now rewrite lookup_insert_ne.
    + intros t Hsome. destruct (decide (t = tag)) as [->|Hne].
      * now right.
      * rewrite lookup_insert_ne in Hsome by congruence. auto.
  - split.
    + rewrite lookup_singleton_eq. eauto.
    + intros tag [x Hx]. apply lookup_singleton_Some in Hx as [<- _]. now left.
Qed.

Lemma buildFS_bundle_keys_witness :
  let Walk := fun root : string =>
                if String.eqb root "asset"
                then [ {| bincludegen.wpath := "asset/logo.txt";
                          bincludegen.werr := None;
                          bincludegen.winfo :=
                            {| name := "logo.txt"; mode := 420; modtime := 0;
                               size := 2 |};
                          bincludegen.wread := inl (Sample.bytes "hi") |} ]
                else [] in
  let includedFiles :=
    [ {| bincludegen.includedPath := "asset";
         bincludegen.goFile := "net_linux.go" |} ] in
  let bundles : gmap string Files :=
    <["_linux" :=
        {["asset/logo.txt" :=
            Sample.regular "logo.txt" 420 (Sample.bytes "hi")]}]>
      {["default" := ∅]} in
  bincludegen.buildFS Walk includedFiles = inl bundles
  /\ is_Some (bundles !! "default").
Proof.
  intros Walk includedFiles bundles.
  assert (Hrun : bincludegen.buildFS Walk includedFiles = inl bundles)
    by (vm_compute; reflexivity).
  split; [exact Hrun|].
  exact (proj1 (buildFS_bundle_keys Walk includedFiles bundles Hrun)).
Defined.

Lemma buildFS_fresh (Walk : string -> list bincludegen.walk_entry)
      (includedFiles : list bincludegen.includedFile)
      (bundles : gmap string Files) :
  bincludegen.buildFS Walk includedFiles = inl bundles ->
  forall tag files p f,
    bundles !! tag = Some files -> files !! p = Some f ->
    bincludegen.freshly_built f.
Proof.
  intros Hrun. unfold bincludegen.buildFS in Hrun.
  refine (buildFS_from_invariant Walk
            (fun fss =>
               forall tag files p f,
                 fss !! tag = Some files -> files !! p = Some f ->
                 bincludegen.freshly_built f)
            (fun _ => True)
            _ includedFiles {["default" := ∅]} bundles _ _ Hrun);
    [| auto |].
  - intros tag fss e fss' _ Hinv He.
    apply walkFn_inv in He as (_ & f0 & Hfresh & ->).
    intros t files p f Ht Hf. destruct (decide (t = tag)) as [->|Hne].
    + rewrite lookup_insert_eq in Ht. inversion Ht; subst files.
      destruct (decide (p = bincludegen.wpath e)) as [->|Hp].
      * rewrite lookup_insert_eq in Hf. now inversion Hf; subst.
      * rewrite lookup_insert_ne in Hf by congruence.
        destruct (fss !! tag) as [old|] eqn:Hold; simpl in Hf.
        -- eapply Hinv; eauto.
        -- now rewrite lookup_empty in Hf.
    + rewrite lookup_insert_ne in Ht by congruence. eapply Hinv; eauto.
  - intros tag files p f Ht Hf.
    apply lookup_singleton_Some in Ht as [_ <-].
    now rewrite lookup_empty in Hf.
Qed.

(** X15.  The records of the bundles.  When [buildFS] succeeds, every
    record of every bundle is tagged None and has never been opened, and
    every directory record has empty content: the bundles meet what the
    round trip of the compression asks of directories. *)
Theorem buildFS_records_freshly_built
        (Walk : string -> list bincludegen.walk_entry)
        (includedFiles : list bincludegen.includedFile)
        (bundles : gmap string Files) :
  bincludegen.buildFS Walk includedFiles = inl bundles ->
  forall tag files p f,
    bundles !! tag = Some files -> files !! p = Some f ->
    bincludegen.freshly_built f.
Proof. exact (buildFS_fresh Walk includedFiles bundles). Qed.

Lemma buildFS_records_freshly_built_witness :
  let Walk := fun root : string =>
                if String.eqb root "asset"
                then [ {| bincludegen.wpath := "asset";
                          bincludegen.werr := None;
                          bincludegen.winfo :=
                            {| name := "asset";
                               mode := Z.lor FileMode.ModeDir 493;
                               modtime := 0; size := 4096 |};
                          bincludegen.wread :=
                            inr (HostError "read" "asset") |} ]
                else [] in
  let includedFiles :=
    [ {| bincludegen.includedPath := "asset";
         bincludegen.goFile := "main.go" |} ] in
  let bundles : gmap string Files :=
    {["default" := {["asset" := Sample.directory "asset"]}]} in
  bincludegen.buildFS Walk includedFiles = inl bundles
  /\ bincludegen.freshly_built (Sample.directory "asset").
Proof.
  intros Walk includedFiles bundles.
  assert (Hrun : bincludegen.buildFS Walk includedFiles = inl bundles)
    by (vm_compute; reflexivity).
  split; [exact Hrun|].
  apply (buildFS_records_freshly_built Walk includedFiles bundles Hrun
           "default" {["asset" := Sample.directory "asset"]} "asset").
  - vm_compute. reflexivity.
  - vm_compute. reflexivity.
Defined.

Lemma walk_all_entries (tag : string) (es : list bincludegen.walk_entry) :
  forall fss fss',
    bincludegen.walk_all tag fss es = inl fss' ->
    (forall t p,
        (exists files, fss !! t = Some files /\ is_Some (files !! p)) ->
        exists files, fss' !! t = Some files /\ is_Some (files !! p))
    /\ forall e,
        e ∈ es ->
        bincludegen.werr e = None
        /\ (FileInfo_.IsDir (bincludegen.winfo e) = false ->
            exists content, bincludegen.wread e = inl content)
        /\ exists files,
            fss' !! tag = Some files
            /\ is_Some (files !! bincludegen.wpath e).
Proof.
  induction es as [|e0 es IH]; intros fss fss' Hrun.
  - simpl in Hrun. inversion Hrun; subst. split; [auto|].
    intros e He. now apply elem_of_nil in He.
  - simpl in Hrun.
    destruct (bincludegen.walkFn tag fss e0) as [fss1|err] eqn:He0;
      [|discriminate].
    destruct (IH fss1 fss' Hrun) as [Hmono Hall].
    assert (Hread : FileInfo_.IsDir (bincludegen.winfo e0) = false ->
                    exists content, bincludegen.wread e0 = inl content).
    { intros Hreg. unfold bincludegen.walkFn in He0.
      destruct (bincludegen.werr e0); [discriminate|]. rewrite Hreg in He0.
      destruct (bincludegen.wread e0); [eauto | discriminate]. }
    apply walkFn_inv in He0 as (Herr & f & _ & ->).
    assert (Hstep : forall t p,
               (exists files, fss !! t = Some files /\ is_Some (files !! p)) ->
               exists files,
                 <[tag := <[bincludegen.wpath e0 := f]> (default ∅ (fss !! tag))]>
                   fss !! t = Some files /\ is_Some (files !! p)).
    { intros t p (files & Ht & Hp). destruct (decide (t = tag)) as [->|Hne].
      - rewrite lookup_insert_eq. eexists. split; [reflexivity|].
        rewrite Ht. simpl.
        destruct (decide (p = bincludegen.wpath e0)) as [->|Hp'].
        + rewrite lookup_insert_eq. eauto.
        + now rewrite lookup_insert_ne by congruence.
      - rewrite lookup_insert_ne by congruence. eauto. }
    split.
    + intros t p Hpres. apply Hmono. now apply Hstep.
    + intros e He. apply elem_of_cons in He as [->|He]; [|now apply Hall].
      split; [assumption|]. split; [assumption|].
      apply Hmono. rewrite lookup_insert_eq. eexists. split; [reflexivity|].
      rewrite lookup_insert_eq. eauto.
Qed.

Lemma buildFS_from_mono (Walk : string -> list bincludegen.walk_entry)
      (l : list bincludegen.includedFile) :
  forall fss fss',
    bincludegen.buildFS_from Walk fss l = inl fss' ->
    forall t p,
      (exists files, fss !! t = Some files /\ is_Some (files !! p)) ->
      exists files, fss' !! t = Some files /\ is_Some (files !! p).
Proof.
  induction l as [|g l IH]; intros fss fss' Hrun t p Hpres.
  - simpl in Hrun. now inversion Hrun; subst.
  - simpl in Hrun.
    destruct (bincludegen.walk_all _ fss _) as [fss1|err] eqn:Hw; [|discriminate].
    destruct (walk_all_entries _ _ _ _ Hw) as [Hmono _].
    apply (IH fss1 fss' Hrun). now apply Hmono.
Qed.

(** X16.  No partial bundles.  When [buildFS] succeeds, every entry that
    the walk of every included path reported came without an error, the
    bytes of every entry that is no directory could be read, and the path
    of the entry is a key of the bundle keyed by the tag of its declaring
    file. *)
Theorem buildFS_holds_every_entry
        (Walk : string -> list bincludegen.walk_entry)
        (includedFiles : list bincludegen.includedFile)
        (bundles : gmap string Files) :
  bincludegen.buildFS Walk includedFiles = inl bundles ->
  forall file e,
    file ∈ includedFiles ->
    e ∈ Walk (bincludegen.includedPath file) ->
    bincludegen.werr e = None
    /\ (FileInfo_.IsDir (bincludegen.winfo e) = false ->
        exists content, bincludegen.wread e = inl content)
    /\ exists files,
        bundles !! bincludegen.buildTag (bincludegen.goFile file) = Some files
        /\ is_Some (files !! bincludegen.wpath e).
Proof.
  unfold bincludegen.buildFS. generalize ({["default" := ∅]} : gmap string Files).
  induction includedFiles as [|file0 l IH]; intros fss Hrun file e Hfile He.
  - now apply elem_of_nil in Hfile.
  - simpl in Hrun.
    destruct (bincludegen.walk_all _ fss _) as [fss1|err] eqn:Hw; [|discriminate].
    apply elem_of_cons in Hfile as [->|Hfile].
    + destruct (walk_all_entries _ _ _ _ Hw) as [_ Hall].
      destruct (Hall e He) as (Herr & Hread & Hpres).
      split; [assumption|]. split; [assumption|].
      now apply (buildFS_from_mono Walk l fss1 bundles Hrun).
    + now apply (IH fss1 Hrun).
Qed.

Lemma buildFS_holds_every_entry_witness :
  let entry :=
    {| bincludegen.wpath := "asset/logo.txt"; bincludegen.werr := None;
       bincludegen.winfo :=
         {| name := "logo.txt"; mode := 420; modtime := 0; size := 2 |};
       bincludegen.wread := inl (Sample.bytes "hi") |} in
  let Walk := fun root : string =>
                if String.eqb root "asset" then [entry] else [] in
  let file := {| bincludegen.includedPath := "asset";
                 bincludegen.goFile := "net_windows_amd64.go" |} in
  let bundles : gmap string Files :=
    <["_windows_amd64" :=
        {["asset/logo.txt" :=
            Sample.regular "logo.txt" 420 (Sample.bytes "hi")]}]>
      {["default" := ∅]} in
  bincludegen.buildFS Walk [file] = inl bundles
  /\ exists files,
      bundles !! "_windows_amd64" = Some files
      /\ is_Some (files !! "asset/logo.txt").
Proof.
  intros entry Walk file bundles.
  assert (Hrun : bincludegen.buildFS Walk [file] = inl bundles)
    by (vm_compute; reflexivity).
  split; [exact Hrun|].
  destruct (buildFS_holds_every_entry Walk [file] bundles Hrun file entry)
    as (_ & _ & Hpres).
  - left.
  - left.
  - exact Hpres.
Defined.

(** ** From the build to the run *)

(** X17.  The generated bundles come back.  When gzip reads back what
    it wrote and [buildFS] succeeds, [Generate]'s encoding of the bundles
    with Gzip followed by [Decompress] at run time returns no error and
    gives every record of a bundle the bytes read from the build host,
    provided the regular files of that bundle are sniffed outside the
    exclusion list; nothing has to be assumed of its directories. *)
Theorem built_bundle_round_trip (E : Externals) (Hgzip : gzip_inverse E)
        (Walk : string -> list bincludegen.walk_entry)
        (includedFiles : list bincludegen.includedFile)
        (bundles : gmap string Files) (tag : string) (files : Files)
        (ord : list string) :
  bincludegen.buildFS Walk includedFiles = inl bundles ->
  bundles !! tag = Some files ->
  range_order files ord ->
  (forall p f, files !! p = Some f -> FileMode.IsDir (Mode f) = false ->
               mimetype_Detect (Content f) ∉ compressExcl) ->
  exists encoded files',
    bincludegen.encode_bundles Gzip bundles !! tag = Some encoded
    /\ FileSystem.Decompress ord encoded = (files', None)
    /\ forall p, Content <$> files' !! p = Content <$> files !! p.
Proof.
  intros Hbuild Htag [Hnd Hkeys] Hreg.
  assert (Hdir : forall p f, files !! p = Some f ->
                             FileMode.IsDir (Mode f) = true ->
                             Content f = [] /\ compression f = None_).
  { intros p f Hf Hd.
    destruct (buildFS_fresh Walk includedFiles bundles Hbuild tag files p f
                Htag Hf) as (Ht & _ & Hc).
    auto. }
  exists (FileSystem.Encode Gzip files).
  destruct (Decompress_all_decodable ord (FileSystem.Encode Gzip files) Hnd)
    as (files' & Hrun & Hlook).
  { intros p fc _ Hfc. unfold FileSystem.Encode in Hfc.
    rewrite lookup_fmap in Hfc.
    destruct (files !! p) as [f|] eqn:Hf; [|discriminate].
    inversion Hfc; subst fc. exists (Content f).
    apply decode_encode_file; eauto. }
  exists files'. split; [|split; [assumption|]].
  - unfold bincludegen.encode_bundles. now rewrite lookup_fmap, Htag.
  - intros p. rewrite Hlook. unfold FileSystem.Encode. rewrite lookup_fmap.
    destruct (files !! p) as [f|] eqn:Hf.
    + rewrite decide_True by (apply Hkeys; eauto). simpl. f_equal.
      unfold FileSystem.decoded.
      rewrite (decode_encode_file E f Hgzip); eauto.
    + now destruct (decide (p ∈ ord)).
Qed.

Lemma built_bundle_round_trip_witness :
  let entry :=
    {| bincludegen.wpath := "asset/logo.txt"; bincludegen.werr := None;
       bincludegen.winfo :=
         {| name := "logo.txt"; mode := 420; modtime := 0; size := 2 |};
       bincludegen.wread := inl (Sample.bytes "hi") |} in
  let Walk := fun root : string =>
                if String.eqb root "asset" then [entry] else [] in
  let file := {| bincludegen.includedPath := "asset";
                 bincludegen.goFile := "net_linux.go" |} in
  let files : Files :=
    {["asset/logo.txt" := Sample.regular "logo.txt" 420 (Sample.bytes "hi")]} in
  exists encoded files',
    @bincludegen.encode_bundles Sample.externals Gzip
      (<["_linux" := files]> {["default" := ∅]}) !! "_linux" = Some encoded
    /\ @FileSystem.Decompress Sample.externals ["asset/logo.txt"] encoded
       = (files', None)
    /\ forall p, Content <$> files' !! p = Content <$> files !! p.
Proof.
  intros entry Walk file files.
  apply (built_bundle_round_trip Sample.externals Sample_gzip_inverse Walk
           [file] _ "_linux" files ["asset/logo.txt"]).
  - vm_compute. reflexivity.
  - vm_compute. reflexivity.
  - range_order_by_compute.
  - intros p f Hf _. subst files.
    apply lookup_singleton_Some in Hf as [_ <-].
    vm_compute. intros Hin.
    repeat (apply elem_of_cons in Hin as [Hin|Hin]; [discriminate|]).
    now apply elem_of_nil in Hin.
Defined.

(** ** The include declarations *)

Lemma trim_loop_filter (TrimSpace : string -> string) :
  forall (fuel : nat) (done rest : list string),
    List.length rest < fuel ->
    bincludegen.trim_loop TrimSpace fuel (List.length done) (done ++ rest)%list
    = Returned (done ++ filter (fun s : string => s <> "")
                               (TrimSpace <$> rest))%list.
Proof.
  induction fuel as [|fuel IH]; intros done rest Hfuel; [lia|].
  cbn [bincludegen.trim_loop]. destruct rest as [|x rest].
  - rewrite app_nil_r.
    destruct (Nat.ltb_spec (List.length done) (List.length done)); [lia|].
    change (filter (fun s : string => s <> "") (TrimSpace <$> []))
      with (@nil string).
    now rewrite app_nil_r.
  - destruct (Nat.ltb_spec (List.length done)
                           (List.length (done ++ x :: rest)%list)) as [_|Hge];
      [|rewrite length_app in Hge; simpl in Hge; lia].
    rewrite list_lookup_middle by reflexivity. cbn [default]. cbv zeta.
    unfold id.
    assert (Hins : <[List.length done := TrimSpace x]> (done ++ x :: rest)%list
                   = (done ++ TrimSpace x :: rest)%list).
    { rewrite insert_app_r_alt by lia. now rewrite Nat.sub_diag. }
    rewrite Hins, fmap_cons, filter_cons.
    destruct (String.eqb_spec (TrimSpace x) "") as [Hempty|Hfull].
    + rewrite decide_False by (intros H; now apply H).
      unfold bincludegen.remove.
      destruct (Nat.ltb_spec (List.length done)
                             (List.length (done ++ TrimSpace x :: rest)%list))
        as [_|Hge]; [|rewrite length_app in Hge; simpl in Hge; lia].
      rewrite take_app_length.
      assert (Hdrop : drop (S (List.length done)) (done ++ TrimSpace x :: rest)%list
                      = rest).
      { change (done ++ TrimSpace x :: rest)%list
          with (done ++ [TrimSpace x] ++ rest)%list.
        rewrite app_assoc.
        replace (S (List.length done))
          with (List.length (done ++ [TrimSpace x])%list)
          by (rewrite length_app; simpl; lia).
        apply drop_app_length. }
      rewrite Hdrop. apply IH. simpl in Hfuel. lia.
    + rewrite decide_True by assumption.
      change (done ++ TrimSpace x :: rest)%list
        with (done ++ [TrimSpace x] ++ rest)%list.
      rewrite app_assoc.
      replace (S (List.length done))
        with (List.length (done ++ [TrimSpace x])%list)
        by (rewrite length_app; simpl; lia).
      rewrite IH by (simpl in Hfuel; lia).
      now rewrite <- app_assoc.
Qed.

(** X18.  The lines of an include file.  Whatever [strings.TrimSpace]
    is, the loop that trims the lines in place and removes the empty ones
    with [i--] returns, without a panic of [remove], exactly the trimmed
    lines that are not empty, in their order: no line is skipped after a
    removal and none is looked at twice. *)
Theorem include_file_paths_filter (TrimSpace : string -> string)
        (content : string) :
  bincludegen.include_file_paths TrimSpace content
  = Returned (filter (fun s : string => s <> "")
                     (TrimSpace <$> bincludegen.split_lines content)).
Proof.
  unfold bincludegen.include_file_paths.
  apply (trim_loop_filter TrimSpace _ [] (bincludegen.split_lines content)).
  lia.
Qed.

Lemma check_included_ok (os_Stat : string -> option error)
      (l : list bincludegen.includedFile) :
  Forall (fun a => filepath.IsAbs (bincludegen.includedPath a) = false
                   /\ os_Stat (bincludegen.includedPath a) = None) l ->
  bincludegen.check_included os_Stat l
  = inl ((fun a =>
            {| bincludegen.includedPath :=
                 GoStrings.TrimPrefix (bincludegen.includedPath a) "./";
               bincludegen.goFile := bincludegen.goFile a |}) <$> l).
Proof.
  induction l as [|a l IH]; intros Hall; [reflexivity|].
  apply Forall_cons in Hall as [[Habs Hstat] Hall].
  simpl. now rewrite Habs, Hstat, IH.
Qed.

(** X19.  What [detectIncluded] accepts.  Its last loop returns a list
    exactly when every included path is relative (does not begin with a
    slash) and exists on the host; the list returned then has the same
    declaring files in the same order, each path with one leading "./"
    removed. *)
Theorem check_included_accepts (os_Stat : string -> option error)
        (l : list bincludegen.includedFile) :
  (Forall (fun a => filepath.IsAbs (bincludegen.includedPath a) = false
                    /\ os_Stat (bincludegen.includedPath a) = None) l ->
   bincludegen.check_included os_Stat l
   = inl ((fun a =>
             {| bincludegen.includedPath :=
                  GoStrings.TrimPrefix (bincludegen.includedPath a) "./";
                bincludegen.goFile := bincludegen.goFile a |}) <$> l))
  /\ (forall l', bincludegen.check_included os_Stat l = inl l' ->
                 Forall (fun a =>
                           filepath.IsAbs (bincludegen.includedPath a) = false
                           /\ os_Stat (bincludegen.includedPath a) = None) l).
Proof.
  split; [apply check_included_ok|].
  induction l as [|a l IH]; intros l' Hrun; [constructor|].
  simpl in Hrun.
  destruct (filepath.IsAbs (bincludegen.includedPath a)) eqn:Habs;
    [discriminate|].
  destruct (os_Stat (bincludegen.includedPath a)) eqn:Hstat; [discriminate|].
  destruct (bincludegen.check_included os_Stat l) as [rest|err] eqn:Hrest;
    [|discriminate].
  constructor; [auto | now apply (IH rest)].
Qed.

Lemma check_included_accepts_witness :
  let os_Stat := fun p : string =>
                   if String.eqb p "./assets" then None
                   else Some (HostError "stat" p) in
  bincludegen.check_included os_Stat
    [ {| bincludegen.includedPath := "./assets";
         bincludegen.goFile := "main.go" |} ]
  = inl [ {| bincludegen.includedPath := "assets";
             bincludegen.goFile := "main.go" |} ]
  /\ bincludegen.check_included os_Stat
       [ {| bincludegen.includedPath := "/etc";
            bincludegen.goFile := "main.go" |} ]
     = inr bincludegen.RelativeOnly.
Proof.
  intros os_Stat. split; [|reflexivity].
  destruct (check_included_accepts os_Stat
              [ {| bincludegen.includedPath := "./assets";
                   bincludegen.goFile := "main.go" |} ]) as [Hok _].
  apply Hok. repeat constructor.
Defined.

(** X20.  A path that is absolute after the trimming.  [filepath.IsAbs]
    is asked before the leading "./" is removed: an included path ["./"
    + q] is never refused as absolute, and when it exists on the host the
    list returned holds the path [q] itself, also when [q] begins with a
    slash. *)
Theorem check_included_trims_after_check (os_Stat : string -> option error)
        (q goFile : string)
        (rest rest' : list bincludegen.includedFile) :
  os_Stat ("./" ++ q) = None ->
  bincludegen.check_included os_Stat rest = inl rest' ->
  filepath.IsAbs ("./" ++ q) = false
  /\ bincludegen.check_included os_Stat
       ({| bincludegen.includedPath := "./" ++ q;
           bincludegen.goFile := goFile |} :: rest)
     = inl ({| bincludegen.includedPath := q;
               bincludegen.goFile := goFile |} :: rest').
Proof.
  intros Hstat Hrest.
  assert (Habs : filepath.IsAbs ("./" ++ q) = false).
  { reflexivity. }
  split; [exact Habs|].
  cbn [bincludegen.check_included bincludegen.includedPath bincludegen.goFile].
  rewrite Habs, Hstat, Hrest. now rewrite TrimPrefix_dot_slash.
Qed.

Lemma check_included_trims_after_check_witness :
  let os_Stat := fun p : string =>
                   if String.eqb p ".//etc/hosts" then None
                   else Some (HostError "stat" p) in
  bincludegen.check_included os_Stat
    [ {| bincludegen.includedPath := ".//etc/hosts";
         bincludegen.goFile := "main.go" |} ]
  = inl [ {| bincludegen.includedPath := "/etc/hosts";
             bincludegen.goFile := "main.go" |} ]
  /\ filepath.IsAbs "/etc/hosts" = true.
Proof.
  intros os_Stat. split; [|reflexivity].
  apply (check_included_trims_after_check os_Stat "/etc/hosts" "main.go" [] []).
  - reflexivity.
  - reflexivity.
Defined.

(** ** Metadata *)

(** X21.  [Stat] reads the record, not the reader.  For a name whose
    record is in the store, [FileSystem.Stat] returns the name, mode and
    time of the record and the length of its content as the size,
    whatever the state and the position of the reader, leaves the record
    closed and changes no persisted field; for a name that is no key it
    returns the NotFound error and the store is as before. *)
Theorem Stat_reports_the_record (files : Files) (nm : string) :
  (forall f,
      files !! GoStrings.TrimPrefix nm "./" = Some f ->
      exists files',
        FileSystem.Stat files nm
        = (files',
           inl {| name := Filename f; mode := Mode f; modtime := ModTime f;
                  size := Z.of_nat (List.length (Content f)) |})
        /\ reader <$> files' !! GoStrings.TrimPrefix nm "./" = Some None
        /\ forall q, persisted <$> files' !! q = persisted <$> files !! q)
  /\ (files !! GoStrings.TrimPrefix nm "./" = None ->
      FileSystem.Stat files nm
      = (files, inr (NotFound (GoStrings.TrimPrefix nm "./")))).
Proof.
  split.
  - intros f Hf. rewrite (Stat_found files nm f Hf).
    eexists. split; [reflexivity|]. split.
    + now rewrite lookup_insert_eq.
    + now apply (persisted_insert_same files _ f).
  - intros Hnone. unfold FileSystem.Stat, FileSystem.Open.
    now rewrite Hnone.
Qed.

Lemma Stat_reports_the_record_witness :
  let files := match Handle.Read (fst (FileSystem.Open Sample.store "a.txt"))
                                 "a.txt" 4 with
               | Returned (files', _) => files'
               | _ => Sample.store
               end in
  (exists files',
      FileSystem.Stat files "./a.txt"
      = (files', inl {| name := "a.txt"; mode := 420; modtime := 0;
                        size := 5 |}))
  /\ FileSystem.Stat files "b.txt" = (files, inr (NotFound "b.txt")).
Proof.
  intros files.
  destruct (Stat_reports_the_record files "./a.txt") as [Hfound _].
  destruct (Stat_reports_the_record files "b.txt") as [_ Hmissing].
  split.
  - destruct (Hfound
                (set_reader
                   (Some {| Reader.s := Sample.bytes "hello"; Reader.i := 4 |})
                   (opened "a.txt"
                      (Sample.regular "a.txt" 420 (Sample.bytes "hello")))))
      as (files' & Hrun & _).
    + vm_compute. reflexivity.
    + exists files'. exact Hrun.
  - apply Hmissing. vm_compute. reflexivity.
Defined.
